(** * disk_msg_handler: the disk message handler of the monitoring service

    A shallow embedding of [low-level/message_handlers/disk_msg_handler.py]
    (classes [Drive] and [DiskMsgHandler]) and the properties of its
    dispatcher, stores, incident logging and durable report.

    Conventions of the embedding.
    - A Python value that can reach the handler from a decoded message is a
      [pyval]: [None], a string or an integer. Strings are byte strings,
      and lower-casing is that of ASCII. A decoded message holds unicode
      strings, whose lower-casing is the same on ASCII characters and may
      differ on others: where the code lower-cases a stored value as it
      is, the properties take that value to be ASCII ([is_ascii]).
    - [_process_msg] is taken on a decoded message, a finite map from keys
      to values ([gmap]); [jsonMsg.get(k)] is [None] for a missing key.
    - The two stores [_drvmngr_drives] and [_hpi_drives] are dictionaries
      whose iteration order is observable (the report is written by
      iterating one), so they are kept as the list of their items in
      iteration order.
    - A method of the handler is a computation over the handler's state that
      either returns or raises; what it did to the state before raising
      stays done. The state holds the attributes of the handler, the report
      file and the internal queues it writes to.
    - Calls to the logger and to [_log_debug] only format text; they are
      left out, except where evaluating their arguments can raise. *)

From Stdlib Require Import ZArith Ascii DecimalString.
From Stdlib Require String.
From stdpp Require Import base option list sorting gmap strings.

(** ** Python values and the primitives the module uses *)

Inductive pyval : Type :=
  | PNone
  | PStr (s : string)
  | PInt (z : Z).

#[global] Instance pyval_eq_dec : EqDecision pyval.
Proof. solve_decision. Defined.

(** Exceptions the module can meet. *)
Inductive exn : Type :=
  | KeyError (key : pyval)
  | IndexError
  | ValueError
  | TypeError
  | AttributeError
  | UnboundLocalError (name : string).

Inductive result (A : Type) : Type :=
  | Returned (a : A)
  | Raised (e : exn).
Arguments Returned {A} a.
Arguments Raised {A} e.

Module Py.

(** [c.lower()] on one character of a byte string. *)
Definition lower_ascii (c : ascii) : ascii :=
  let n := nat_of_ascii c in
  if (65 <=? n) && (n <=? 90) then ascii_of_nat (n + 32) else c.

(** [s.lower()] *)
Fixpoint lower (s : string) : string :=
  match s with
  | EmptyString => EmptyString
  | String c s' => String (lower_ascii c) (lower s')
  end.

(** [s.split(sep)] for a one-character separator: never empty, and an
    empty field between two adjacent separators. *)
Fixpoint split (sep : ascii) (s : string) : list string :=
  match s with
  | EmptyString => [EmptyString]
  | String c s' =>
      if Ascii.eqb c sep then EmptyString :: split sep s'
      else match split sep s' with
           | [] => [String c EmptyString]
           | w :: ws => String c w :: ws
           end
  end.

(** [s.split(sep, 1)]: at most one cut, at the first separator. *)
Fixpoint split1 (sep : ascii) (s : string) : list string :=
  match s with
  | EmptyString => [EmptyString]
  | String c s' =>
      if Ascii.eqb c sep then [EmptyString; s']
      else match split1 sep s' with
           | [] => [String c EmptyString]
           | w :: ws => String c w :: ws
           end
  end.

(** [a, b = l]: unpacking into exactly two names. *)
Definition unpack2 {A} (l : list A) : result (A * A) :=
  match l with
  | [a; b] => Returned (a, b)
  | _ => Raised ValueError
  end.

(** [l[i]] *)
Definition index {A} (l : list A) (i : nat) : result A :=
  match l !! i with
  | Some a => Returned a
  | None => Raised IndexError
  end.

(** [needle in hay] on strings. *)
Fixpoint contains (needle hay : string) : bool :=
  match hay with
  | EmptyString => String.prefix needle EmptyString
  | String _ hay' => String.prefix needle hay || contains needle hay'
  end.

(** [str(v)] *)
Definition str (v : pyval) : string :=
  match v with
  | PNone => "None"
  | PStr s => s
  | PInt z => NilZero.string_of_int (Z.to_int z)
  end.

(** [v.split(sep)]: only strings have the method. *)
Definition split_method (v : pyval) (sep : ascii) : result (list string) :=
  match v with
  | PStr s => Returned (split sep s)
  | _ => Raised AttributeError
  end.

(** [v.lower()] *)
Definition lower_method (v : pyval) : result string :=
  match v with
  | PStr s => Returned (lower s)
  | _ => Raised AttributeError
  end.

(** [a + b] where the code concatenates strings. *)
Definition add (a b : pyval) : result pyval :=
  match a, b with
  | PStr s, PStr t => Returned (PStr (s +:+ t))
  | PInt x, PInt y => Returned (PInt (x + y))
  | _, _ => Raised TypeError
  end.

(** [a <= b] between values, as [sorted] orders the keys of a dictionary:
    [None] first, then numbers, then strings. *)
Definition le (a b : pyval) : bool :=
  match a, b with
  | PNone, _ => true
  | PInt _, PNone => false
  | PInt x, PInt y => (x <=? y)%Z
  | PInt _, PStr _ => true
  | PStr s, PStr t => String.leb s t
  | PStr _, _ => false
  end.

(** *** Dictionaries in iteration order *)
Section dict.
Context {V : Type}.

Definition dict : Type := list (pyval * V).

(** [d.get(k)] *)
Fixpoint get (d : dict) (k : pyval) : option V :=
  match d with
  | [] => None
  | (k', v) :: d' => if decide (k' = k) then Some v else get d' k
  end.

(** [d[k]] *)
Definition getitem (d : dict) (k : pyval) : result V :=
  match get d k with
  | Some v => Returned v
  | None => Raised (KeyError k)
  end.

(** [d[k] = v]: a key already there keeps its place and gets the new
    value; a new key is taken to come last. (The interpreter puts a new
    key where its hash sends it: the order of iteration is no order of the
    keys.) *)
Fixpoint setitem (d : dict) (k : pyval) (v : V) : dict :=
  match d with
  | [] => [(k, v)]
  | (k', v') :: d' =>
      if decide (k' = k) then (k', v) :: d' else (k', v') :: setitem d' k v
  end.

(** [for k in d] *)
Definition keys (d : dict) : list pyval := d.*1.

(** [d.iteritems()] *)
Definition iteritems (d : dict) : list (pyval * V) := d.

End dict.
Arguments dict V : clear implicits.

End Py.

Definition NA : pyval := PStr "N/A".

(** ** class Drive *)

Record Drive : Type := {
  _hostId : string;
  _path : pyval;
  _status : pyval;
  _serialNumber : pyval;
  _drawer : pyval;
  _location : pyval;
  _manufacturer : pyval;
  _productName : pyval;
  _productVersion : pyval;
  _wwn : pyval;
  _enclosure : pyval;
  _drive_num : pyval;
  _filename : pyval;
}.

#[global] Instance Drive_eq_dec : EqDecision Drive.
Proof. solve_decision. Defined.

(** [Drive.__init__]; the callers that pass four arguments get ["N/A"] for
    the rest, see [Drive4]. *)
Definition Drive_init (hostId : string)
    (path status serialNumber drawer location manufacturer
       productName productVersion wwn : pyval) : Drive :=
  {| _hostId := hostId; _path := path; _status := status;
     _serialNumber := serialNumber; _drawer := drawer; _location := location;
     _manufacturer := manufacturer; _productName := productName;
     _productVersion := productVersion; _wwn := wwn;
     _enclosure := NA; _drive_num := PInt (-1)%Z; _filename := NA |}.

Definition Drive4 (hostId : string) (path status serialNumber : pyval) : Drive :=
  Drive_init hostId path status serialNumber NA NA NA NA NA NA.

Definition get_drive_status (self : Drive) : pyval := _status self.
Definition get_drive_enclosure (self : Drive) : pyval := _enclosure self.
Definition get_drive_num (self : Drive) : pyval := _drive_num self.
Definition get_drive_filename (self : Drive) : pyval := _filename self.
Definition getSerialNumber (self : Drive) : pyval := _serialNumber self.

Definition set_parsed (self : Drive) (enclosure drive_num filename : pyval) : Drive :=
  {| _hostId := _hostId self; _path := _path self; _status := _status self;
     _serialNumber := _serialNumber self; _drawer := _drawer self;
     _location := _location self; _manufacturer := _manufacturer self;
     _productName := _productName self; _productVersion := _productVersion self;
     _wwn := _wwn self;
     _enclosure := enclosure; _drive_num := drive_num; _filename := filename |}.

(** [Drive.parse_drive_mngr_path]: the object after the call and the value
    returned. The body of the [try] is [drive_mngr_path_body]; whatever it
    raises is caught and the method returns [False]. *)
Definition drive_mngr_path_body (self : Drive) : result (bool * Drive) :=
  match Py.split_method (_path self) "/" with
  | Raised e => Raised e
  | Returned path_values =>
      if (length path_values <? 4)%nat then Returned (false, self)
      else
        match Py.index path_values 0, Py.index path_values 2, Py.index path_values 3 with
        | Returned e, Returned n, Returned f =>
            Returned (true, set_parsed self (PStr e) (PStr n) (PStr f))
        | Raised x, _, _ => Raised x
        | Returned e, Raised x, _ =>
            Raised x
        | Returned e, Returned n, Raised x =>
            Raised x
        end
  end.

Definition parse_drive_mngr_path (self : Drive) : bool * Drive :=
  match drive_mngr_path_body self with
  | Returned r => r
  | Raised _ => (false, self)
  end.

(** [Drive.parse_hpi_path] *)
Definition hpi_path_body (self : Drive) : result (bool * Drive) :=
  match Py.split_method (_path self) "/" with
  | Raised e => Raised e
  | Returned path_values =>
      if (length path_values <? 3)%nat then Returned (false, self)
      else
        match Py.index path_values 0, Py.index path_values 2 with
        | Returned e, Returned n =>
            Returned (true, set_parsed self (PStr e) (PStr n) (_filename self))
        | Raised x, _ => Raised x
        | Returned e, Raised x => Raised x
        end
  end.

Definition parse_hpi_path (self : Drive) : bool * Drive :=
  match hpi_path_body self with
  | Returned r => r
  | Raised _ => (false, self)
  end.

(** ** Messages *)

(** A decoded inbound message; [jsonMsg.get(k)] is [msg_get]. *)
Abbreviation message := (gmap string pyval).

Definition msg_get (jsonMsg : message) (k : string) : pyval :=
  default PNone (jsonMsg !! k).

(** The modules the handler writes to. *)
Inductive module_name : Type :=
  | RabbitMQegressProcessor
  | LoggingMsgHandler.

#[global] Instance module_name_eq_dec : EqDecision module_name.
Proof. solve_decision. Defined.

(** The text of a response: a literal, or a format with the message it is
    applied to (the text of a whole dictionary is not spelled out). *)
Inductive text : Type :=
  | Lit (s : string)
  | Percent (format : string) (arg : message).

(** The data of an incident, [json_data] in [_log_IEM]. *)
Record iem_data : Type := {
  enclosure_serial_number : pyval;
  disk_serial_number : pyval;
  slot : pyval;
  status : string;
  reason : string;
}.

(** What is written to an internal queue. The classes of [json_msgs] are
    outside this module: a message object is the values it is built from,
    [uuid] being [PNone] when [set_uuid] was not called. *)
Inductive payload : Type :=
  | DriveMngrMsg (enclosure drive_num status serial_number uuid : pyval)
  | HPIDataMsg (hostId : string)
      (path drawer location manufacturer productName productVersion
         serialNumber wwn enclosure uuid : pyval)
  | AckResponseMsg (request : pyval) (response : text) (uuid : pyval)
  | LoggingRequest (log_level log_type log_msg : string) (json_data : iem_data).

Definition toDriveMngrJsonMsg (self : Drive) (uuid : pyval) : payload :=
  DriveMngrMsg (_enclosure self) (_drive_num self) (_status self)
    (_serialNumber self) uuid.

Definition toHPIjsonMsg (self : Drive) (uuid : pyval) : payload :=
  HPIDataMsg (_hostId self) (_path self) (_drawer self) (_location self)
    (_manufacturer self) (_productName self) (_productVersion self)
    (_serialNumber self) (_wwn self) (_enclosure self) uuid.

(** ** The durable report *)

Record report_entry : Type := {
  entry_serial_number : pyval;
  entry_status : string;
  entry_reason : string;
}.

Record DurableReport : Type := {
  last_update_time : string;
  drives : list report_entry;
}.

(** ** class DiskMsgHandler *)

(** The handler's attributes, the report file (whether its directory
    exists, and the documents written to it so far, oldest first: the file
    holds the last one and does not exist while there is none) and the
    messages written to the internal queues, oldest first. *)
Record handler : Type := {
  _host_id : string;
  _drvmngr_drives : Py.dict Drive;
  _hpi_drives : Py.dict Drive;
  dmreport_dir : bool;
  dmreport_file : list DurableReport;
  msgQ : list (module_name * payload);
}.

(** [initialize]: both dictionaries start empty. *)
Definition initialize (host_id : string) (dir : bool)
    (file : list DurableReport) : handler :=
  {| _host_id := host_id; _drvmngr_drives := []; _hpi_drives := [];
     dmreport_dir := dir; dmreport_file := file; msgQ := [] |}.

Definition set_drvmngr_drives (d : Py.dict Drive) (self : handler) : handler :=
  {| _host_id := _host_id self; _drvmngr_drives := d;
     _hpi_drives := _hpi_drives self; dmreport_dir := dmreport_dir self;
     dmreport_file := dmreport_file self; msgQ := msgQ self |}.

Definition set_hpi_drives (d : Py.dict Drive) (self : handler) : handler :=
  {| _host_id := _host_id self; _drvmngr_drives := _drvmngr_drives self;
     _hpi_drives := d; dmreport_dir := dmreport_dir self;
     dmreport_file := dmreport_file self; msgQ := msgQ self |}.

Definition set_dmreport_dir (b : bool) (self : handler) : handler :=
  {| _host_id := _host_id self; _drvmngr_drives := _drvmngr_drives self;
     _hpi_drives := _hpi_drives self; dmreport_dir := b;
     dmreport_file := dmreport_file self; msgQ := msgQ self |}.

Definition set_dmreport_file (f : list DurableReport) (self : handler) : handler :=
  {| _host_id := _host_id self; _drvmngr_drives := _drvmngr_drives self;
     _hpi_drives := _hpi_drives self; dmreport_dir := dmreport_dir self;
     dmreport_file := f; msgQ := msgQ self |}.

Definition set_msgQ (q : list (module_name * payload)) (self : handler) : handler :=
  {| _host_id := _host_id self; _drvmngr_drives := _drvmngr_drives self;
     _hpi_drives := _hpi_drives self; dmreport_dir := dmreport_dir self;
     dmreport_file := dmreport_file self; msgQ := q |}.

(** *** Computations that return or raise *)

(** Sequencing where nothing but an exception can happen. *)
Definition rbind {A B} (r : result A) (k : A → result B) : result B :=
  match r with
  | Returned a => k a
  | Raised e => Raised e
  end.

(** A method: from the state of the handler to what it returns or raises
    and the state it leaves. *)
Definition M (A : Type) : Type := handler → result A * handler.

Definition ret {A} (a : A) : M A := λ self, (Returned a, self).

Definition bind {A B} (c : M A) (k : A → M B) : M B := λ self,
  match c self with
  | (Returned a, self') => k a self'
  | (Raised e, self') => (Raised e, self')
  end.

Declare Scope py_scope.
Delimit Scope py_scope with py.
Bind Scope py_scope with M.
Notation "'let!' x := c 'in' k" := (bind c (λ x, k))
  (at level 10, x pattern, c at level 100, k at level 200) : py_scope.
Notation "c ;;; k" := (bind c (λ _, k))
  (at level 100, k at level 200, right associativity) : py_scope.
Notation "'try!' x := r 'in' k" := (rbind r (λ x, k))
  (at level 10, x pattern, r at level 100, k at level 200) : py_scope.
Local Open Scope py_scope.

Definition raise {A} (e : exn) : M A := λ self, (Raised e, self).
Definition lift {A} (r : result A) : M A := λ self, (r, self).
Definition gets {A} (f : handler → A) : M A := λ self, (Returned (f self), self).
Definition modify (f : handler → handler) : M unit := λ self, (Returned (), f self).

(** [try: c  except Exception as e: h e] *)
Definition try_except {A} (c : M A) (h : exn → M A) : M A := λ self,
  match c self with
  | (Returned a, self') => (Returned a, self')
  | (Raised e, self') => h e self'
  end.

(** Reading a local variable that may not have been assigned. *)
Definition load_local {A} (name : string) (v : option A) : M A :=
  match v with
  | Some a => ret a
  | None => raise (UnboundLocalError name)
  end.

(** [for x in l: body], with the locals the body updates as accumulator. *)
Fixpoint for_fold {A S} (l : list A) (s : S) (body : S → A → M S) : M S :=
  match l with
  | [] => ret s
  | a :: l' => let! s' := body s a in for_fold l' s' body
  end.

Definition for_each {A} (l : list A) (body : A → M unit) : M unit :=
  for_fold l () (λ _ a, body a).

Definition is_not_None (v : pyval) : bool :=
  match v with
  | PNone => false
  | _ => true
  end.

Definition _write_internal_msgQ (toModule : module_name) (jsonMsg : payload) : M unit :=
  modify (λ self, set_msgQ (msgQ self ++ [(toModule, jsonMsg)]) self).

(** *** _serialize_disk_status *)

(** [status, reason = str(drive.get_drive_status()).split("_", 1)] *)
Definition status_and_reason (drive : Drive) : result (string * string) :=
  Py.unpack2 (Py.split1 "_" (Py.str (get_drive_status drive))).

(** The body of the loop over the drives. *)
Definition append_drive (drives_list : list report_entry)
    (item : pyval * Drive) : M (list report_entry) :=
  let '(serial_num, drive) := item in
  let! (status, reason) := lift (status_and_reason drive) in
  let drives := {| entry_serial_number := getSerialNumber drive;
                   entry_status := status;
                   entry_reason := reason |} in
  ret (drives_list ++ [drives]).

(** [now] is what [time.strftime("%c")] returns at the call. The calls to
    [os] and [open] are taken to succeed (a failure there is caught by the
    same handler: the method returns all the same, without the directory
    or the document, and with the attributes and the queues as they
    were). A report is kept as the document
    that [json.dumps] is given; [sort_keys] orders the keys of each object
    of that document, not the list of drives. *)
Definition _serialize_disk_status (now : string) : M unit :=
  try_except
    (let! dir := gets dmreport_dir in
     (if dir : bool then ret () else modify (set_dmreport_dir true));;;
     let! d := gets _drvmngr_drives in
     let! drives_list := for_fold (Py.iteritems d) [] append_drive in
     let json_dict := {| last_update_time := now; drives := drives_list |} in
     modify (λ self, set_dmreport_file (dmreport_file self ++ [json_dict]) self))
    (λ ae, ret ()).

(** *** _log_IEM *)

Definition IEC_removed : string := "IEC: 020001002: Drive removed".
Definition IEC_added : string := "IEC: 020001001: Drive added".
Definition IEC_smart : string := "IEC: 020002002: SMART validation test has failed".
Definition IEC_unknown (status reason : string) : string :=
  "IEC: 000000000: Attempting to log unknown disk status/reason: "
    +:+ status +:+ "/" +:+ reason.

(** The [if]/[elif] chain that assigns [log_msg]; no branch taken leaves
    the local unassigned. *)
Definition iem_log_msg (status reason : string) : option string :=
  if String.eqb (Py.lower status) "empty" || String.eqb (Py.lower status) "unused"
  then Some IEC_removed
  else if String.eqb (Py.lower status) "ok" || String.eqb (Py.lower status) "inuse"
  then Some IEC_added
  else if String.eqb (Py.lower status) "failed"
  then if Py.contains "smart" (Py.lower reason)
       then Some IEC_smart
       else Some (IEC_unknown status reason)
  else None.

(** The message is kept as its text [log_msg] and its data [json_data],
    which the code joins with [":"] in the ["log_msg"] of the request. *)
Definition _log_IEM (drive : Drive) : M unit :=
  let! (status, reason) := lift (status_and_reason drive) in
  let log_msg := iem_log_msg status reason in
  let json_data :=
    {| enclosure_serial_number := get_drive_enclosure drive;
       disk_serial_number := getSerialNumber drive;
       slot := get_drive_num drive;
       status := status;
       reason := reason |} in
  let! log_msg := load_local "log_msg" log_msg in
  _write_internal_msgQ LoggingMsgHandler
    (LoggingRequest "LOG_WARNING" "IEM" log_msg json_data).

(** *** _process_msg *)

(** [a + "/disk/" + b + "/status"] *)
Definition status_path (enclosure drive_num : pyval) : result pyval :=
  try! a := Py.add enclosure (PStr "/disk/") in
  try! b := Py.add a drive_num in
  Py.add b (PStr "/status").

(** The path of a drive-manager event that carries an object path: built
    from the HPI data of the serial number inside a [try], the
    not-available path when anything there raises. *)
Definition object_event_path (hpi_drives : Py.dict Drive) (serial_number : pyval) : pyval :=
  let event_path := PStr "HPIdataNotAvailable/disk/-1/status" in
  match (try! hpi_drive := Py.getitem hpi_drives serial_number in
         status_path (get_drive_enclosure hpi_drive) (get_drive_num hpi_drive)) with
  | Returned event_path => event_path
  | Raised ae => event_path
  end.

(** The test before [_log_IEM]: the serial number has a stored drive and
    its status is not the status of the new drive. *)
Definition status_changed (d : Py.dict Drive) (serial_number : pyval)
    (drive : Drive) : bool :=
  match Py.get d serial_number with
  | Some stored => bool_decide (get_drive_status stored ≠ get_drive_status drive)
  | None => false
  end.

(** A drive-manager event whose path is valid: forward the message, log an
    IEM if the stored status differs, store the drive, write the report. *)
Definition drivemanager_update (now : string) (serial_number : pyval)
    (drive : Drive) : M unit :=
  let internal_json_msg := toDriveMngrJsonMsg drive PNone in
  _write_internal_msgQ RabbitMQegressProcessor internal_json_msg;;;
  let! d := gets _drvmngr_drives in
  (if status_changed d serial_number drive
   then _log_IEM drive
   else ret ());;;
  modify (λ self,
    set_drvmngr_drives (Py.setitem (_drvmngr_drives self) serial_number drive) self);;;
  _serialize_disk_status now.

(** The drive of a drive-manager event, from its event path or, failing
    that, from its object path; [None] where the method returns before it
    has a valid drive. *)
Definition drivemanager_drive (host_id : string) (hpi_drives : Py.dict Drive)
    (jsonMsg : message) : option Drive :=
  let serial_number := msg_get jsonMsg "serial_number" in
  if is_not_None (msg_get jsonMsg "event_path") then
    let drive := Drive4 host_id (msg_get jsonMsg "event_path")
                   (msg_get jsonMsg "status") serial_number in
    let '(valid, drive) := parse_drive_mngr_path drive in
    if negb valid then None else Some drive
  else if is_not_None (msg_get jsonMsg "object_path") then
    let event_path := object_event_path hpi_drives serial_number in
    let drive := Drive4 host_id event_path (msg_get jsonMsg "status") serial_number in
    let '(valid, drive) := parse_drive_mngr_path drive in
    if negb valid then None else Some drive
  else None.

Definition disk_status_drivemanager (now : string) (jsonMsg : message) : M unit :=
  let serial_number := msg_get jsonMsg "serial_number" in
  let! host_id := gets _host_id in
  let! hpi_drives := gets _hpi_drives in
  match drivemanager_drive host_id hpi_drives jsonMsg with
  | None => ret ()
  | Some drive => drivemanager_update now serial_number drive
  end.

(** The drive of an HPI event; [None] where its path is not valid and the
    method returns. *)
Definition hpi_drive (host_id : string) (jsonMsg : message) : option Drive :=
  let drive := Drive_init host_id (msg_get jsonMsg "event_path")
                 (msg_get jsonMsg "status") (msg_get jsonMsg "serialNumber")
                 (msg_get jsonMsg "drawer") (msg_get jsonMsg "location")
                 (msg_get jsonMsg "manufacturer") (msg_get jsonMsg "productName")
                 (msg_get jsonMsg "productVersion") (msg_get jsonMsg "wwn") in
  let '(valid, drive) := parse_hpi_path drive in
  if negb valid then None else Some drive.

(** The drive-manager drive made from the drive of an HPI event; [None]
    where its path is not valid and the method returns. *)
Definition drv_mngr_drive_of (host_id : string) (jsonMsg : message)
    (drive : Drive) : result (option Drive) :=
  let serial_number := msg_get jsonMsg "serialNumber" in
  try! event_path :=
    status_path (get_drive_enclosure drive) (get_drive_num drive) in
  let drv_mngr_drive :=
    Drive4 host_id event_path (msg_get jsonMsg "status") serial_number in
  let '(valid, drv_mngr_drive) := parse_drive_mngr_path drv_mngr_drive in
  Returned (if negb valid then None else Some drv_mngr_drive).

Definition disk_status_hpi (now : string) (jsonMsg : message) : M unit :=
  let! host_id := gets _host_id in
  match hpi_drive host_id jsonMsg with
  | None => ret ()
  | Some drive =>
      let serial_number := msg_get jsonMsg "serialNumber" in
      modify (λ self,
        set_hpi_drives (Py.setitem (_hpi_drives self) serial_number drive) self);;;
      let! drv_mngr_drive := lift (drv_mngr_drive_of host_id jsonMsg drive) in
      match drv_mngr_drive with
      | None => ret ()
      | Some drv_mngr_drive =>
          modify (λ self,
            set_drvmngr_drives
              (Py.setitem (_drvmngr_drives self) serial_number drv_mngr_drive)
              self);;;
          _serialize_disk_status now;;;
          _write_internal_msgQ RabbitMQegressProcessor (toHPIjsonMsg drive PNone)
      end
  end.

(** ["Passed"] or ["Failed"] from the lower-cased status of a drive. The
    status is lower-cased as it was stored, without [str]: for a status
    with characters outside ASCII the lower-casing of the code is not this
    one. *)
Definition smart_response (drive : Drive) : result string :=
  try! s := Py.lower_method (get_drive_status drive) in
  Returned (if String.eqb s "inuse_ok" || String.eqb s "ok_none"
            then "Passed" else "Failed").

(** A value stored in one of the dictionaries is an object of class
    [Drive]: it is not [None]. *)
Definition Drive_is_not_None (drive : Drive) : bool := true.

Definition ack (request : pyval) (response : string) (uuid : pyval) : M unit :=
  _write_internal_msgQ RabbitMQegressProcessor
    (AckResponseMsg request (Lit response) uuid).

Definition disk_smart_test (serial_number node_request uuid : pyval) : M unit :=
  let! d := gets _drvmngr_drives in
  if bool_decide (serial_number = PStr "*") then
    for_each (Py.keys d) (λ serial_number,
      let! drive := lift (Py.getitem d serial_number) in
      let! response := lift (smart_response drive) in
      let request := PStr ("SMART_TEST: serial number: "
                             +:+ Py.str (getSerialNumber drive)
                             +:+ ", IP: " +:+ Py.str node_request) in
      ack request response uuid)
  else
    let! response :=
      match Py.get d serial_number with
      | Some drive => lift (smart_response drive)
      | None =>
          ret "Error: SMART results not yet available for drive, please try again later."
      end in
    ack node_request response uuid.

Definition drvmngr_status (serial_number node_request uuid : pyval) : M unit :=
  let! d := gets _drvmngr_drives in
  if bool_decide (serial_number = PStr "*") then
    for_each (Py.keys d) (λ serial_number,
      let! drive := lift (Py.getitem d serial_number) in
      _write_internal_msgQ RabbitMQegressProcessor (toDriveMngrJsonMsg drive uuid));;;
    ack node_request "All Drive manager data sent successfully" uuid
  else
    let! stored := lift (Py.getitem d serial_number) in
    if Drive_is_not_None stored then
      let drive := stored in
      _write_internal_msgQ RabbitMQegressProcessor (toDriveMngrJsonMsg drive uuid);;;
      ack node_request "Drive manager data sent successfully" uuid
    else
      ack node_request "Drive not found in drive manager data" uuid.

Definition hpi_status (serial_number node_request uuid : pyval) : M unit :=
  let! d := gets _hpi_drives in
  if bool_decide (serial_number = PStr "*") then
    for_each (Py.keys d) (λ serial_number,
      let! drive := lift (Py.getitem d serial_number) in
      _write_internal_msgQ RabbitMQegressProcessor (toHPIjsonMsg drive uuid));;;
    ack node_request "All HPI data sent successfully" uuid
  else
    let! stored := lift (Py.getitem d serial_number) in
    if Drive_is_not_None stored then
      let drive := stored in
      _write_internal_msgQ RabbitMQegressProcessor (toHPIjsonMsg drive uuid);;;
      ack node_request "Drive manager data sent successfully" uuid
    else
      ack node_request "Drive not found in HPI data" uuid.

(** [_process_msg] on a decoded message. The locals [node_request] and
    [uuid] are assigned in the request branch only. *)
Definition _process_msg (now : string) (jsonMsg : message) : M unit :=
  let node_request : option pyval := None in
  let uuid : option pyval := None in
  if is_not_None (msg_get jsonMsg "sensor_response_type") then
    let sensor_response_type := msg_get jsonMsg "sensor_response_type" in
    if bool_decide (sensor_response_type = PStr "disk_status_drivemanager") then
      disk_status_drivemanager now jsonMsg
    else if bool_decide (sensor_response_type = PStr "disk_status_hpi") then
      disk_status_hpi now jsonMsg
    else ret ()
  else if is_not_None (msg_get jsonMsg "sensor_request_type") then
    let sensor_request_type := msg_get jsonMsg "sensor_request_type" in
    let serial_number := msg_get jsonMsg "serial_number" in
    let node_request := msg_get jsonMsg "node_request" in
    let uuid := msg_get jsonMsg "uuid" in
    if bool_decide (sensor_request_type = PStr "disk_smart_test") then
      disk_smart_test serial_number node_request uuid
    else if bool_decide (sensor_request_type = PStr "drvmngr_status") then
      drvmngr_status serial_number node_request uuid
    else if bool_decide (sensor_request_type = PStr "hpi_status") then
      hpi_status serial_number node_request uuid
    else ret ()
  else
    let response := Percent "DiskMsgHandler, received unknown msg: %s" jsonMsg in
    let! node_request := load_local "node_request" node_request in
    let! uuid := load_local "uuid" uuid in
    _write_internal_msgQ RabbitMQegressProcessor
      (AckResponseMsg node_request response uuid).

(** [run] takes the messages of the queue one at a time, each with the time
    of its processing; an exception that leaves [_process_msg] is caught
    and logged, [run] is scheduled again and goes on with the next
    message. Over a whole queue every message is processed in turn, from
    the state the one before left. *)
Definition process (now : string) (jsonMsg : message) (self : handler) : handler :=
  (_process_msg now jsonMsg self).2.

Definition run (queue : list (string * message)) (self : handler) : handler :=
  foldl (λ self '(now, jsonMsg), process now jsonMsg self) self queue.

(** One call of [run]: the first message of the queue, then the others
    until the queue is empty; an exception that leaves [_process_msg] ends
    the call (it is logged) and the messages not yet read stay in the
    queue. The queue is taken as it stands when the call starts (on an
    empty queue the first read waits: the call is taken to end there), and
    every message read is a decoded one. *)
Fixpoint run_call (queue : list (string * message)) (self : handler) :
    handler * list (string * message) :=
  match queue with
  | [] => (self, [])
  | (now, jsonMsg) :: queue' =>
      match _process_msg now jsonMsg self with
      | (Returned _, self') => run_call queue' self'
      | (Raised _, self') => (self', queue')
      end
  end.

(** [run] ends by scheduling itself again: [n] calls in a row. *)
Fixpoint run_calls (n : nat) (queue : list (string * message)) (self : handler) :
    handler * list (string * message) :=
  match n with
  | O => (self, queue)
  | S n' => let '(self', queue') := run_call queue self in run_calls n' queue' self'
  end.

(** ** Notions used to state the properties *)

(** The messages written to the logging handler: the incidents. *)
Definition incidents (self : handler) : list (module_name * payload) :=
  filter (λ m, m.1 = LoggingMsgHandler) (msgQ self).

(** The status of a drive has no ["_"]. *)
Definition no_separator (drive : Drive) : Prop :=
  Py.contains "_" (Py.str (get_drive_status drive)) = false.

(** An entry of the report against the item of the dictionary it was
    written for: same serial number, and status and reason are the two
    parts of the drive's status around its first ["_"]. *)
Definition entry_of (item : pyval * Drive) (entry : report_entry) : Prop :=
  entry_serial_number entry = getSerialNumber item.2
  ∧ Py.split1 "_" (Py.str (get_drive_status item.2))
    = [entry_status entry; entry_reason entry].

(** Two states of the handler that agree on a projection [f]. *)
Definition same_on {B} (f : handler → B) : relation handler :=
  λ self self', f self' = f self.

(** Everything in a handler but its internal queues. *)
Definition but_msgQ (self : handler) :
    string * Py.dict Drive * Py.dict Drive * bool * list DurableReport :=
  (_host_id self, _drvmngr_drives self, _hpi_drives self,
   dmreport_dir self, dmreport_file self).

(** Everything in a handler but what it wrote to the egress queue. *)
Definition but_egress (self : handler) :=
  (but_msgQ self, incidents self).

(** The report file after an event processed at time [now], against the
    file [before] it: untouched, or with one more document whose entries
    are those of the drive-manager view as the event left it, in the order
    of its iteration. *)
Definition report_of_view (now : string) (before : list DurableReport)
    (self' : handler) : Prop :=
  dmreport_file self' = before
  ∨ ∃ l, dmreport_file self'
         = before ++ [{| last_update_time := now; drives := l |}]
         ∧ Forall2 entry_of (_drvmngr_drives self') l.

(** Everything in a handler but the report file and its directory. *)
Definition but_dmreport (self : handler) :
    string * Py.dict Drive * Py.dict Drive * list (module_name * payload) :=
  (_host_id self, _drvmngr_drives self, _hpi_drives self, msgQ self).

(** The incident that [_log_IEM] writes for a drive whose status splits
    into [state] and [reason], with the text [log_msg]. *)
Definition incident (drive : Drive) (state reason log_msg : string) :
    module_name * payload :=
  (LoggingMsgHandler,
   LoggingRequest "LOG_WARNING" "IEM" log_msg
     {| enclosure_serial_number := get_drive_enclosure drive;
        disk_serial_number := getSerialNumber drive;
        slot := get_drive_num drive;
        status := state;
        reason := reason |}).

(** A computation leaves the handler's state within a relation. *)
Definition keeps {A} (R : relation handler) (c : M A) : Prop :=
  ∀ self, R self (c self).2.

(** The drive-manager drive synthesized from an inventory record of
    enclosure [e] and drive number [n]: path [e/disk/n/status], status and
    serial number of the event. *)
Definition synthesized (host_id : string) (jsonMsg : message) (e n : string) : Drive :=
  set_parsed
    (Drive4 host_id (PStr (((e +:+ "/disk/") +:+ n) +:+ "/status"))
       (msg_get jsonMsg "status") (msg_get jsonMsg "serialNumber"))
    (PStr e) (PStr n) (PStr "status").

(** Every serial number of the inventory view is in the drive-manager
    view. *)
Definition views_consistent (self : handler) : Prop :=
  ∀ serial_number,
    is_Some (Py.get (_hpi_drives self) serial_number) →
    is_Some (Py.get (_drvmngr_drives self) serial_number).

(** The uuid a written message carries ([PNone]: none was set). *)
Definition payload_uuid (jsonMsg : payload) : pyval :=
  match jsonMsg with
  | DriveMngrMsg _ _ _ _ uuid => uuid
  | HPIDataMsg _ _ _ _ _ _ _ _ _ _ uuid => uuid
  | AckResponseMsg _ _ uuid => uuid
  | LoggingRequest _ _ _ _ => PNone
  end.

(** The second state has the queues of the first and, after them, messages
    that all satisfy [P]. *)
Definition writes (P : module_name * payload → Prop) : relation handler :=
  λ self self', ∃ q, msgQ self' = msgQ self ++ q ∧ Forall P q.

(** A message for the egress queue that carries the uuid [uuid]. *)
Definition stamped (uuid : pyval) (m : module_name * payload) : Prop :=
  m.1 = RabbitMQegressProcessor ∧ payload_uuid m.2 = uuid.

(** A dictionary of drives as the handler fills it: no key twice, every
    drive under its own serial number. *)
Definition keyed_by_serial (d : Py.dict Drive) : Prop :=
  NoDup (Py.keys d) ∧ Forall (λ item, getSerialNumber item.2 = item.1) d.

(** Two drives with the same ten fields that the constructor takes: host,
    path, status, serial number, drawer, location, manufacturer, product
    name, product version and wwn. They may differ in enclosure, drive
    number and filename only. *)
Definition same_constructed (self drive : Drive) : Prop :=
  _hostId drive = _hostId self
  ∧ _path drive = _path self
  ∧ _status drive = _status self
  ∧ _serialNumber drive = _serialNumber self
  ∧ _drawer drive = _drawer self
  ∧ _location drive = _location self
  ∧ _manufacturer drive = _manufacturer self
  ∧ _productName drive = _productName self
  ∧ _productVersion drive = _productVersion self
  ∧ _wwn drive = _wwn self.

(** A drive-manager event that changes a status and can be logged: the
    dispatcher has a valid [drive] for it, the serial number has a stored
    drive with another status, and the new status is [state] and [reason]
    around its first ["_"], with [state], lower-cased, one of the five
    that [_log_IEM] has a text for. *)
Definition loggable_change (self : handler) (jsonMsg : message) (drive : Drive)
    (state reason : string) : Prop :=
  msg_get jsonMsg "sensor_response_type" = PStr "disk_status_drivemanager"
  ∧ drivemanager_drive (_host_id self) (_hpi_drives self) jsonMsg = Some drive
  ∧ (∃ stored,
       Py.get (_drvmngr_drives self) (msg_get jsonMsg "serial_number")
       = Some stored
       ∧ get_drive_status stored ≠ get_drive_status drive)
  ∧ Py.split1 "_" (Py.str (get_drive_status drive)) = [state; reason]
  ∧ Py.lower state ∈ ["empty"; "unused"; "ok"; "inuse"; "failed"].

(** Every message of the queue, processed in turn from the state the one
    before left, is one that [_process_msg] returns from. *)
Fixpoint returns_all (queue : list (string * message)) (self : handler) : Prop :=
  match queue with
  | [] => True
  | (now, jsonMsg) :: queue' =>
      (_process_msg now jsonMsg self).1 = Returned ()
      ∧ returns_all queue' (_process_msg now jsonMsg self).2
  end.

(** A drive whose path was parsed by [parse_drive_mngr_path]: the path is a
    string of at least four segments and enclosure, drive number and
    filename are its segments 0, 2 and 3. *)
Definition drive_mngr_parsed (drive : Drive) : Prop :=
  ∃ p e n f,
    _path drive = PStr p
    ∧ Py.split "/" p !! 0 = Some e
    ∧ Py.split "/" p !! 2 = Some n
    ∧ Py.split "/" p !! 3 = Some f
    ∧ _enclosure drive = PStr e
    ∧ _drive_num drive = PStr n
    ∧ _filename drive = PStr f.

(** A drive whose path was parsed by [parse_hpi_path]: at least three
    segments, enclosure and drive number are segments 0 and 2, the filename
    is the one the constructor set. *)
Definition hpi_parsed (drive : Drive) : Prop :=
  ∃ p e n,
    _path drive = PStr p
    ∧ Py.split "/" p !! 0 = Some e
    ∧ Py.split "/" p !! 2 = Some n
    ∧ _enclosure drive = PStr e
    ∧ _drive_num drive = PStr n
    ∧ _filename drive = NA.




(** A request message. *)
Definition request (sensor_request_type serial_number node_request uuid : string) :
    message :=
  <["sensor_request_type" := PStr sensor_request_type]>
    (<["serial_number" := PStr serial_number]>
       (<["node_request" := PStr node_request]>
          (<["uuid" := PStr uuid]> ∅))).

(** A drive-manager event that carries an object path. *)
Definition object_event (status serial_number : string) : message :=
  <["sensor_response_type" := PStr "disk_status_drivemanager"]>
    (<["object_path" := PStr "/org/freedesktop/UDisks2/drives/d0"]>
       (<["status" := PStr status]>
          (<["serial_number" := PStr serial_number]> ∅))).

(** ** Sample drives, states and messages *)

(** A drive as a drive-manager event for slot 3 of enclosure ENC1 stores
    it. *)
Definition sample_drive (status serial_number : string) : Drive :=
  (parse_drive_mngr_path
     (Drive4 "node1" (PStr "ENC1/disk/3/status") (PStr status)
        (PStr serial_number))).2.

(** A handler just initialized, then given the drive-manager view [d]. *)
Definition sample_handler (d : Py.dict Drive) : handler :=
  set_drvmngr_drives d (initialize "node1" false []).

Definition drivemanager_event (event_path status serial_number : string) : message :=
  <["sensor_response_type" := PStr "disk_status_drivemanager"]>
    (<["event_path" := PStr event_path]>
       (<["status" := PStr status]>
          (<["serial_number" := PStr serial_number]> ∅))).

Definition hpi_event (event_path status serialNumber : string) : message :=
  <["sensor_response_type" := PStr "disk_status_hpi"]>
    (<["event_path" := PStr event_path]>
       (<["status" := PStr status]>
          (<["serialNumber" := PStr serialNumber]>
             (<["manufacturer" := PStr "SEAGATE"]> ∅)))).


(** One drive with a well-formed status and one without separator. *)
Definition one_good_one_bad : handler :=
  sample_handler [(PStr "SN1", sample_drive "ok_none" "SN1");
                  (PStr "SN2", sample_drive "bogus" "SN2")].

(** Two drives with well-formed statuses. *)
Definition two_good : handler :=
  sample_handler [(PStr "SN1", sample_drive "ok_none" "SN1");
                  (PStr "SN2", sample_drive "failed_smart_test" "SN2")].

(** A handler that holds one drive, with status [ok_none]. *)
Definition one_ok : handler :=
  sample_handler [(PStr "SN42", sample_drive "ok_none" "SN42")].

(** A drive-manager event for that drive with a status whose state is
    none of the five that [_log_IEM] knows. *)
Definition degraded_event : message :=
  drivemanager_event "ENC1/disk/3/status" "Degraded_none" "SN42".


(** * Properties *)

(** ** The primitives and the handler on small inputs *)

Example split_keeps_empty_fields : Py.split "/" "a//b/" = ["a"; ""; "b"; ""].
Proof. reflexivity. Qed.

Example split1_cuts_once :
  Py.split1 "_" "failed_smart_test" = ["failed"; "smart_test"].
Proof. reflexivity. Qed.

Example unpack2_of_one_field : Py.unpack2 (Py.split1 "_" "bogus") = Raised ValueError.
Proof. reflexivity. Qed.

Example str_of_minus_one : Py.str (PInt (-1)) = "-1".
Proof. reflexivity. Qed.

Example lower_of_mixed_case : Py.lower "Failed_SMART" = "failed_smart".
Proof. reflexivity. Qed.

(** A first event for a serial number: no incident, the drive is stored and
    the report written. *)
Example first_event :
  process "Mon Mar  2 10:00:00 2015"
    (drivemanager_event "ENC1/disk/3/status" "failed_smart" "SN42")
    (initialize "node1" false [])
  = {| _host_id := "node1";
       _drvmngr_drives := [(PStr "SN42", sample_drive "failed_smart" "SN42")];
       _hpi_drives := [];
       dmreport_dir := true;
       dmreport_file :=
         [{| last_update_time := "Mon Mar  2 10:00:00 2015";
             drives := [{| entry_serial_number := PStr "SN42";
                           entry_status := "failed";
                           entry_reason := "smart" |}] |}];
       msgQ := [(RabbitMQegressProcessor,
                 DriveMngrMsg (PStr "ENC1") (PStr "3") (PStr "failed_smart")
                   (PStr "SN42") PNone)] |}.
Proof. reflexivity. Qed.

(** A second event for it with another status: one incident, drive added. *)
Example second_event :
  incidents
    (process "Mon Mar  2 10:00:05 2015"
       (drivemanager_event "ENC1/disk/3/status" "ok_none" "SN42")
       (process "Mon Mar  2 10:00:00 2015"
          (drivemanager_event "ENC1/disk/3/status" "failed_smart" "SN42")
          (initialize "node1" false [])))
  = [incident (sample_drive "ok_none" "SN42") "ok" "none" IEC_added].
Proof. reflexivity. Qed.

(** An inventory event stores its record and the synthesized one. *)
Example inventory_event :
  _drvmngr_drives
    (process "Mon Mar  2 10:00:00 2015"
       (hpi_event "ENC1/disk/3" "ok_none" "SN42")
       (initialize "node1" false []))
  = [(PStr "SN42",
      synthesized "node1" (hpi_event "ENC1/disk/3" "ok_none" "SN42") "ENC1" "3")].
Proof. reflexivity. Qed.

(** A wildcard request: one payload per drive, then the summary ack. *)
Example wildcard_request :
  msgQ
    (process "Mon Mar  2 10:00:00 2015"
       (<["sensor_request_type" := PStr "drvmngr_status"]>
          (<["serial_number" := PStr "*"]>
             (<["node_request" := PStr "X"]> ∅)))
       two_good)
  = [(RabbitMQegressProcessor,
      toDriveMngrJsonMsg (sample_drive "ok_none" "SN1") PNone);
     (RabbitMQegressProcessor,
      toDriveMngrJsonMsg (sample_drive "failed_smart_test" "SN2") PNone);
     (RabbitMQegressProcessor,
      AckResponseMsg (PStr "X") (Lit "All Drive manager data sent successfully")
        PNone)].
Proof. reflexivity. Qed.

(** ** Strings *)

Section strings.

Lemma append_nil (s : string) : EmptyString +:+ s = s.
Proof. reflexivity. Qed.

Lemma append_cons (c : ascii) (a b : string) :
  String c a +:+ b = String c (a +:+ b).
Proof. reflexivity. Qed.

Lemma append_assoc (a b c : string) : (a +:+ b) +:+ c = a +:+ (b +:+ c).
Proof.
  induction a as [|x a IH]; [done |].
  by rewrite !append_cons, IH.
Qed.

Lemma split_nonempty (sep : ascii) (s : string) : Py.split sep s ≠ [].
Proof.
  destruct s as [|c s]; simpl; [done |].
  destruct (Ascii.eqb c sep); [done |].
  by destruct (Py.split sep s).
Qed.

(** Splitting a string that was joined on the separator gives the
    fields of both halves. *)
Lemma split_join (sep : ascii) (a b : string) :
  Py.split sep (a +:+ String sep b) = Py.split sep a ++ Py.split sep b.
Proof.
  induction a as [|c a IH]; [rewrite append_nil | rewrite append_cons]; simpl.
  - by rewrite Ascii.eqb_refl.
  - destruct (Ascii.eqb c sep); [by rewrite IH |].
    rewrite IH. pose proof (split_nonempty sep a).
    by destruct (Py.split sep a).
Qed.

(** A string without the separator is one field. *)
Lemma split_one_field (sep : ascii) (s : string) :
  Py.contains (String sep EmptyString) s = false → Py.split sep s = [s].
Proof.
  induction s as [|c s IH]; simpl; [done |].
  intros H. apply orb_false_iff in H as [Hc Hs].
  destruct (ascii_dec sep c) as [->|Hne].
  - by destruct s.
  - apply Ascii.eqb_neq in Hne. rewrite Ascii.eqb_sym in Hne.
    rewrite Hne, (IH Hs). done.
Qed.

Lemma split1_no_separator (sep : ascii) (s : string) :
  Py.contains (String sep EmptyString) s = false → Py.split1 sep s = [s].
Proof.
  induction s as [|c s IH]; simpl; [done |].
  intros H. apply orb_false_iff in H as [Hc Hs].
  destruct (ascii_dec sep c) as [->|Hne].
  - by destruct s.
  - apply Ascii.eqb_neq in Hne. rewrite Ascii.eqb_sym in Hne.
    rewrite Hne, (IH Hs). done.
Qed.

(** [split(sep, 1)] gives the string itself, or the two parts around
    its first separator. *)
Lemma split1_cases (sep : ascii) (s : string) :
  (Py.split1 sep s = [s] ∧ Py.contains (String sep EmptyString) s = false)
  ∨ ∃ a b, Py.split1 sep s = [a; b] ∧ s = a +:+ String sep b
           ∧ Py.contains (String sep EmptyString) a = false.
Proof.
  induction s as [|c s IH]; simpl; [by left |].
  destruct (ascii_dec sep c) as [->|Hne].
  - rewrite Ascii.eqb_refl. right. exists EmptyString, s. by destruct s.
  - pose proof Hne as Hb. apply Ascii.eqb_neq in Hb.
    rewrite Ascii.eqb_sym in Hb. rewrite Hb.
    destruct IH as [[-> Hc]|(a & b & -> & -> & Hc)].
    + left. split; [done |]. by rewrite Hc.
    + right. exists (String c a), b. split_and!; [done | done |].
      simpl. destruct (ascii_dec sep c); [done |]. by rewrite Hc.
Qed.

Lemma split1_two (sep : ascii) (s a b : string) :
  Py.split1 sep s = [a; b] → s = a +:+ String sep b.
Proof.
  intros H. destruct (split1_cases sep s) as [[H' _]|(a' & b' & H' & -> & _)];
    rewrite H' in H; by simplify_eq.
Qed.

End strings.

(** ** Drive: path parsing *)

(** C4. For a path string whose split on ["/"] has at least four segments,
    [parse_drive_mngr_path] returns [True], and the drive after the call
    has segment 0 as its enclosure, segment 2 as its drive number and
    segment 3 as its filename (nothing else of the drive changes); with
    fewer than four segments it returns [False] and leaves the drive as it
    was. *)
Theorem parse_drive_mngr_path_segments (self : Drive) (p : string) :
  _path self = PStr p →
  (4 ≤ length (Py.split "/" p) →
     ∃ e n f,
       Py.split "/" p !! 0 = Some e ∧
       Py.split "/" p !! 2 = Some n ∧
       Py.split "/" p !! 3 = Some f ∧
       (parse_drive_mngr_path self).1 = true ∧
       _enclosure (parse_drive_mngr_path self).2 = PStr e ∧
       _drive_num (parse_drive_mngr_path self).2 = PStr n ∧
       _filename (parse_drive_mngr_path self).2 = PStr f ∧
       same_constructed self (parse_drive_mngr_path self).2)
  ∧ (length (Py.split "/" p) < 4 →
     parse_drive_mngr_path self = (false, self)).
Proof.
  intros Hp. unfold parse_drive_mngr_path, drive_mngr_path_body.
  rewrite Hp. simpl. split.
  - intros Hlen.
    destruct (Py.split "/" p) as [|e [|d [|n [|f l]]]]; simpl in Hlen; try lia.
    exists e, n, f. simpl. by repeat split.
  - intros Hlen.
    destruct (Nat.ltb_spec (length (Py.split "/" p)) 4) as [_|Hge]; [done | lia].
Qed.

Lemma parse_drive_mngr_path_segments_witness :
  (let drive :=
     (parse_drive_mngr_path
        (Drive4 "node1" (PStr "ENC1/disk/3/status") (PStr "ok_none")
           (PStr "SN42"))).2 in
   _enclosure drive = PStr "ENC1"
   ∧ _drive_num drive = PStr "3"
   ∧ _filename drive = PStr "status"
   ∧ _path drive = PStr "ENC1/disk/3/status"
   ∧ _status drive = PStr "ok_none"
   ∧ _serialNumber drive = PStr "SN42")
  ∧ parse_drive_mngr_path
      (Drive4 "node1" (PStr "ENC1/disk/3") (PStr "ok_none") (PStr "SN42"))
    = (false, Drive4 "node1" (PStr "ENC1/disk/3") (PStr "ok_none") (PStr "SN42")).
Proof.
  split.
  - destruct (parse_drive_mngr_path_segments
                (Drive4 "node1" (PStr "ENC1/disk/3/status") (PStr "ok_none")
                   (PStr "SN42"))
                "ENC1/disk/3/status" eq_refl) as [H _].
    destruct H as (e & n & f & He & Hn & Hf & _ & Henc & Hnum & Hfile & Hsame);
      [simpl; lia |].
    destruct Hsame as (_ & Hpath & Hstatus & Hserial & _).
    simpl in He, Hn, Hf. simplify_eq. cbv zeta.
    by rewrite Henc, Hnum, Hfile, Hpath, Hstatus, Hserial.
  - apply (parse_drive_mngr_path_segments
             (Drive4 "node1" (PStr "ENC1/disk/3") (PStr "ok_none") (PStr "SN42"))
             "ENC1/disk/3" eq_refl).
    simpl. lia.
Defined.

(** ** Dispatcher: what the code does where it departs from its comments *)

(** C1 (the code falls short of it). A message with neither
    ["sensor_response_type"] nor ["sensor_request_type"] reaches the last
    [else] of [_process_msg], whose comment announces a failure ack;
    building that ack reads [node_request], a local assigned in the request
    branch only, so the call raises [UnboundLocalError] and nothing is
    written to any queue: no failure ack is sent. *)
Theorem process_msg_unclassified (now : string) (jsonMsg : message) (self : handler) :
  msg_get jsonMsg "sensor_response_type" = PNone →
  msg_get jsonMsg "sensor_request_type" = PNone →
  _process_msg now jsonMsg self
    = (Raised (UnboundLocalError "node_request"), self).
Proof.
  intros Hresp Hreq. unfold _process_msg. by rewrite Hresp, Hreq.
Qed.

Lemma process_msg_unclassified_witness :
  _process_msg "Mon Mar  2 10:00:00 2015" (<["hello" := PStr "world"]> ∅)
    (initialize "node1" false [])
  = (Raised (UnboundLocalError "node_request"), initialize "node1" false []).
Proof.
  apply (process_msg_unclassified "Mon Mar  2 10:00:00 2015"
           (<["hello" := PStr "world"]> ∅) (initialize "node1" false []));
    reflexivity.
Defined.

(** C2 (the code falls short of it). A ["drvmngr_status"] or
    ["hpi_status"] request for a serial number other than ["*"] that the
    store does not hold: the [elif] subscripts the dictionary before any
    test of presence, so the call raises [KeyError] and writes nothing; the
    "drive not found" ack of the final [else] is not sent. *)
Theorem status_request_unknown_serial (now : string) (jsonMsg : message)
    (self : handler) (serial_number : pyval) :
  msg_get jsonMsg "sensor_response_type" = PNone →
  msg_get jsonMsg "serial_number" = serial_number →
  serial_number ≠ PStr "*" →
  (msg_get jsonMsg "sensor_request_type" = PStr "drvmngr_status"
     ∧ Py.get (_drvmngr_drives self) serial_number = None)
  ∨ (msg_get jsonMsg "sensor_request_type" = PStr "hpi_status"
     ∧ Py.get (_hpi_drives self) serial_number = None) →
  _process_msg now jsonMsg self = (Raised (KeyError serial_number), self).
Proof.
  intros Hresp Hsn Hstar [[Hreq Hget]|[Hreq Hget]];
    unfold _process_msg; rewrite Hresp, Hreq, Hsn; simpl.
  - unfold drvmngr_status, bind, gets, lift, Py.getitem.
    rewrite bool_decide_eq_false_2 by done. by rewrite Hget.
  - unfold hpi_status, bind, gets, lift, Py.getitem.
    rewrite bool_decide_eq_false_2 by done. by rewrite Hget.
Qed.

Lemma status_request_unknown_serial_witness :
  _process_msg "Mon Mar  2 10:00:00 2015"
    (<["sensor_request_type" := PStr "hpi_status"]>
       (<["serial_number" := PStr "UNKNOWN"]>
          (<["node_request" := PStr "X"]> (<["uuid" := PStr "u1"]> ∅))))
    (initialize "node1" false [])
  = (Raised (KeyError (PStr "UNKNOWN")), initialize "node1" false []).
Proof.
  apply (status_request_unknown_serial "Mon Mar  2 10:00:00 2015"
           (<["sensor_request_type" := PStr "hpi_status"]>
              (<["serial_number" := PStr "UNKNOWN"]>
                 (<["node_request" := PStr "X"]> (<["uuid" := PStr "u1"]> ∅))))
           (initialize "node1" false []) (PStr "UNKNOWN")).
  - reflexivity.
  - reflexivity.
  - discriminate.
  - right. split; reflexivity.
Defined.

(** ** The report serializer *)

Section serializer.

Lemma status_and_reason_cases (drive : Drive) :
  (status_and_reason drive = Raised ValueError ∧ no_separator drive)
  ∨ ∃ a b, status_and_reason drive = Returned (a, b)
           ∧ Py.split1 "_" (Py.str (get_drive_status drive)) = [a; b].
Proof.
  unfold status_and_reason, no_separator.
  destruct (split1_cases "_" (Py.str (get_drive_status drive)))
    as [[-> H]|(a & b & -> & _ & _)].
  - by left.
  - right. by exists a, b.
Qed.

(** With a separator in its status a drive cannot also lack one. *)
Lemma entry_of_separator (item : pyval * Drive) (entry : report_entry) :
  entry_of item entry → ¬ no_separator item.2.
Proof.
  intros [_ Hsplit] Hno. unfold no_separator in Hno.
  apply (split1_no_separator "_") in Hno. rewrite Hno in Hsplit.
  discriminate.
Qed.

Lemma for_fold_cons {A S} (a : A) (l : list A) (s : S) (body : S → A → M S) :
  for_fold (a :: l) s body = bind (body s a) (λ s', for_fold l s' body).
Proof. reflexivity. Qed.

Lemma append_drive_eq (acc : list report_entry) (sn : pyval) (drive : Drive)
    (self : handler) :
  append_drive acc (sn, drive) self
  = match status_and_reason drive with
    | Returned (a, b) =>
        (Returned (acc ++ [{| entry_serial_number := getSerialNumber drive;
                              entry_status := a; entry_reason := b |}]),
         self)
    | Raised e => (Raised e, self)
    end.
Proof.
  unfold append_drive, bind, lift, ret.
  by destruct (status_and_reason drive) as [[a b]|e].
Qed.

Lemma append_drive_step (acc : list report_entry) (sn : pyval) (drive : Drive)
    (items : list (pyval * Drive)) (self : handler) :
  for_fold ((sn, drive) :: items) acc append_drive self
  = match status_and_reason drive with
    | Returned (a, b) =>
        for_fold items
          (acc ++ [{| entry_serial_number := getSerialNumber drive;
                      entry_status := a; entry_reason := b |}])
          append_drive self
    | Raised e => (Raised e, self)
    end.
Proof.
  rewrite for_fold_cons. unfold bind. rewrite append_drive_eq.
  by destruct (status_and_reason drive) as [[a b]|e].
Qed.

(** The loop over the drives: one entry per item, in the order of the
    iteration, or [ValueError] at the first drive without separator. *)
Lemma append_drive_loop (items : list (pyval * Drive))
    (acc : list report_entry) (self : handler) :
  (∃ l, for_fold items acc append_drive self = (Returned (acc ++ l), self)
        ∧ Forall2 entry_of items l)
  ∨ (for_fold items acc append_drive self = (Raised ValueError, self)
     ∧ Exists (λ item, no_separator item.2) items).
Proof.
  revert acc. induction items as [|[sn drive] items IH]; intros acc.
  - left. exists []. rewrite app_nil_r. split; [done | constructor].
  - rewrite append_drive_step.
    destruct (status_and_reason_cases drive) as [[-> Hno]|(a & b & -> & Hab)].
    + right. split; [done |]. by apply Exists_cons_hd.
    + destruct (IH (acc ++ [{| entry_serial_number := getSerialNumber drive;
                               entry_status := a; entry_reason := b |}]))
        as [(l & -> & Hl)|[-> Hex]].
      * left. eexists (_ :: l). rewrite <- app_assoc. split; [done |].
        by constructor.
      * right. split; [done |]. by apply Exists_cons_tl.
Qed.

Lemma serialize_disk_status_eq (now : string) (self : handler) :
  _serialize_disk_status now self
  = match for_fold (_drvmngr_drives self) [] append_drive
            (set_dmreport_dir true self) with
    | (Returned l, self') =>
        (Returned (),
         set_dmreport_file
           (dmreport_file self' ++ [{| last_update_time := now; drives := l |}])
           self')
    | (Raised e, self') => (Returned (), self')
    end.
Proof.
  unfold _serialize_disk_status, try_except, bind, gets, modify, ret,
    Py.iteritems.
  destruct self as [host d hpi [|] file q]; simpl;
    by destruct (for_fold d [] append_drive _) as [[l|e] self'].
Qed.

(** [_serialize_disk_status] always returns. It appends one document to
    the file, with one entry per drive in the order of the dictionary, or,
    when some drive has no separator in its status, it writes nothing. *)
Lemma serialize_disk_status_cases (now : string) (self : handler) :
  (∃ l, _serialize_disk_status now self
        = (Returned (),
           set_dmreport_file
             (dmreport_file self
                ++ [{| last_update_time := now; drives := l |}])
             (set_dmreport_dir true self))
        ∧ Forall2 entry_of (_drvmngr_drives self) l)
  ∨ (_serialize_disk_status now self = (Returned (), set_dmreport_dir true self)
     ∧ Exists (λ item, no_separator item.2) (_drvmngr_drives self)).
Proof.
  rewrite serialize_disk_status_eq.
  destruct (append_drive_loop (_drvmngr_drives self) []
              (set_dmreport_dir true self)) as [(l & -> & Hl)|[-> Hex]].
  - left. exists l. by split.
  - right. by split.
Qed.

End serializer.

(** *** A status without separator *)

(** C3 does not hold for skipping the one record only: with one
    well-formed drive (SN1) and one whose status has no ["_"] (SN2) in the
    view, no document at all is written, so the entry of SN1 is not written
    either. *)
Lemma serialize_skips_only_bad_record_counterexample :
  Exists (λ item, no_separator item.2) (_drvmngr_drives one_good_one_bad)
  ∧ ¬ (∃ r entry,
         r ∈ dmreport_file
               (_serialize_disk_status "Mon Mar  2 10:00:00 2015"
                  one_good_one_bad).2
         ∧ entry ∈ drives r
         ∧ entry_serial_number entry = PStr "SN1").
Proof.
  split.
  - apply Exists_cons_tl, Exists_cons_hd. reflexivity.
  - intros (r & entry & Hr & _). vm_compute in Hr. by apply elem_of_nil in Hr.
Qed.

(** C3, as the code has it. When some record of the view has a status
    without ["_"], the exception of the split is caught inside
    [_serialize_disk_status]: the call returns normally, and it writes
    nothing, for no record: the report file, the views and the queues are as
    before (only the directory of the report has been created). *)
Theorem serialize_disk_status_without_separator (now : string) (self : handler) :
  Exists (λ item, no_separator item.2) (_drvmngr_drives self) →
  _serialize_disk_status now self = (Returned (), set_dmreport_dir true self).
Proof.
  intros Hex.
  destruct (serialize_disk_status_cases now self) as [(l & _ & Hl)|[H _]];
    [| done].
  exfalso. apply Exists_exists in Hex as (item & Hin & Hno).
  apply list_elem_of_lookup in Hin as [i Hi].
  destruct (Forall2_lookup_l _ _ _ _ _ Hl Hi) as (entry & _ & Hentry).
  by apply (entry_of_separator item entry).
Qed.

Lemma serialize_disk_status_without_separator_witness :
  _serialize_disk_status "Mon Mar  2 10:00:00 2015" one_good_one_bad
  = (Returned (), set_dmreport_dir true one_good_one_bad).
Proof.
  apply (serialize_disk_status_without_separator
           "Mon Mar  2 10:00:00 2015" one_good_one_bad).
  apply Exists_cons_tl, Exists_cons_hd. reflexivity.
Defined.

(** *** Status and reason of a written entry *)

Section status_text.

Lemma uint_no_separator (d : Decimal.uint) :
  Py.contains "_" (NilEmpty.string_of_uint d) = false.
Proof. induction d; simpl; done. Qed.

Lemma int_no_separator (z : Z) :
  Py.contains "_" (NilZero.string_of_int (Z.to_int z)) = false.
Proof.
  destruct (Z.to_int z) as [d|d]; simpl;
    destruct d; try done; apply (uint_no_separator (_ d)).
Qed.

(** Only a string can be split in two at a ["_"], and it is its two
    parts joined by ["_"]. *)
Lemma split_status_string (v : pyval) (a b : string) :
  Py.split1 "_" (Py.str v) = [a; b] → v = PStr (a +:+ "_" +:+ b).
Proof.
  destruct v as [|s|z]; simpl.
  - discriminate.
  - intros H. by rewrite (split1_two "_" s a b H).
  - intros H. rewrite (split1_no_separator "_") in H by apply int_no_separator.
    discriminate.
Qed.

End status_text.

(** C6. Whenever [_serialize_disk_status] writes a report for a view, the
    entries of the report are those of the drives of the view, and joining
    the status and the reason of an entry with ["_"] gives back the status
    stored for its drive. (A report is written only when every stored
    status has a ["_"].) *)
Theorem report_rejoins_status (now : string) (self : handler) (r : DurableReport) :
  dmreport_file (_serialize_disk_status now self).2 = dmreport_file self ++ [r] →
  Forall2
    (λ item entry,
       entry_serial_number entry = getSerialNumber item.2
       ∧ get_drive_status item.2
         = PStr (entry_status entry +:+ "_" +:+ entry_reason entry))
    (_drvmngr_drives self) (drives r).
Proof.
  intros Hfile.
  destruct (serialize_disk_status_cases now self) as [(l & H & Hl)|[H _]];
    rewrite H in Hfile; simpl in Hfile.
  - apply app_inv_head in Hfile. injection Hfile as <-. simpl.
    eapply Forall2_impl; [exact Hl |].
    intros item entry [Hsn Hsplit]. split; [done |].
    by apply split_status_string.
  - apply (f_equal length) in Hfile. rewrite length_app in Hfile.
    simpl in Hfile. lia.
Qed.

Lemma report_rejoins_status_witness :
  Forall2
    (λ item entry,
       entry_serial_number entry = getSerialNumber item.2
       ∧ get_drive_status item.2
         = PStr (entry_status entry +:+ "_" +:+ entry_reason entry))
    (_drvmngr_drives two_good)
    [{| entry_serial_number := PStr "SN1"; entry_status := "ok";
        entry_reason := "none" |};
     {| entry_serial_number := PStr "SN2"; entry_status := "failed";
        entry_reason := "smart_test" |}].
Proof.
  apply (report_rejoins_status "Mon Mar  2 10:00:00 2015" two_good
           {| last_update_time := "Mon Mar  2 10:00:00 2015";
              drives :=
                [{| entry_serial_number := PStr "SN1"; entry_status := "ok";
                    entry_reason := "none" |};
                 {| entry_serial_number := PStr "SN2"; entry_status := "failed";
                    entry_reason := "smart_test" |}] |}).
  reflexivity.
Defined.

(** ** Incident logging *)

Section log_IEM.

Lemma log_IEM_eq (drive : Drive) (self : handler) :
  _log_IEM drive self
  = match status_and_reason drive with
    | Returned (state, reason) =>
        match iem_log_msg state reason with
        | Some log_msg =>
            (Returned (),
             set_msgQ (msgQ self ++ [incident drive state reason log_msg]) self)
        | None => (Raised (UnboundLocalError "log_msg"), self)
        end
    | Raised e => (Raised e, self)
    end.
Proof.
  unfold _log_IEM, bind, lift.
  destruct (status_and_reason drive) as [[state reason]|e]; [| done].
  by destruct (iem_log_msg state reason).
Qed.

(** Whether [_log_IEM] raises, and the incident it writes, depend on the
    drive alone. *)
Lemma log_IEM_cases (drive : Drive) :
  (∃ e, ∀ self, _log_IEM drive self = (Raised e, self))
  ∨ (∃ m, ∀ self,
       _log_IEM drive self
       = (Returned (), set_msgQ (msgQ self ++ [(LoggingMsgHandler, m)]) self)).
Proof.
  destruct (status_and_reason drive) as [[state reason]|e] eqn:Hsr.
  - destruct (iem_log_msg state reason) as [log_msg|] eqn:Hmsg.
    + right. eexists. intros self. rewrite log_IEM_eq, Hsr, Hmsg. done.
    + left. eexists. intros self. by rewrite log_IEM_eq, Hsr, Hmsg.
  - left. exists e. intros self. by rewrite log_IEM_eq, Hsr.
Qed.

Lemma eqb_false (s t : string) : s ≠ t → String.eqb s t = false.
Proof. by intros H; apply String.eqb_neq. Qed.

(** No branch of the [if]/[elif] chain is taken for a state that is none
    of the five. *)
Lemma iem_log_msg_unassigned (state reason : string) :
  Py.lower state ∉ ["empty"; "unused"; "ok"; "inuse"; "failed"] →
  iem_log_msg state reason = None.
Proof.
  intros H. unfold iem_log_msg.
  rewrite !eqb_false; [done | intros E; apply H; rewrite E; set_solver ..].
Qed.

(** One branch of the chain is taken for each of the five states. *)
Lemma iem_log_msg_assigned (state reason : string) :
  Py.lower state ∈ ["empty"; "unused"; "ok"; "inuse"; "failed"] →
  ∃ log_msg, iem_log_msg state reason = Some log_msg.
Proof.
  intros Hstate. unfold iem_log_msg.
  repeat (apply elem_of_cons in Hstate as [->|Hstate]; [simpl; eauto |]).
  - destruct (Py.contains "smart" (Py.lower reason)); eauto.
  - by apply elem_of_nil in Hstate.
Qed.

End log_IEM.

(** C8. When [_log_IEM] runs on a drive whose status splits at its first
    ["_"] into [state] and [reason], with [state] (lower-cased) one of
    [empty], [unused], [ok], [inuse], [failed], it returns having written
    exactly one message, to the logging handler, after the messages
    already in the queues and with nothing else changed. The message
    carries enclosure, serial number, slot, [state] and [reason], and its
    text is: drive removed for [empty] or [unused]; drive added for [ok] or
    [inuse]; SMART validation failed for [failed] with ["smart"] in the
    lower-cased reason; and for [failed] otherwise the unknown
    status/reason text with [state] and [reason] as they are.
    For any other state no branch of the chain assigns [log_msg]: reading
    it raises [UnboundLocalError], and no message is written. *)
Theorem log_IEM_mapping (drive : Drive) (self : handler) (state reason : string) :
  Py.split1 "_" (Py.str (get_drive_status drive)) = [state; reason] →
  let emits log_msg :=
    ∃ self',
      _log_IEM drive self = (Returned (), self')
      ∧ msgQ self' = msgQ self ++ [incident drive state reason log_msg]
      ∧ but_msgQ self' = but_msgQ self in
  (Py.lower state = "empty" ∨ Py.lower state = "unused" → emits IEC_removed)
  ∧ (Py.lower state = "ok" ∨ Py.lower state = "inuse" → emits IEC_added)
  ∧ (Py.lower state = "failed" →
     Py.contains "smart" (Py.lower reason) = true → emits IEC_smart)
  ∧ (Py.lower state = "failed" →
     Py.contains "smart" (Py.lower reason) = false →
     emits (IEC_unknown state reason))
  ∧ (Py.lower state ∉ ["empty"; "unused"; "ok"; "inuse"; "failed"] →
     _log_IEM drive self = (Raised (UnboundLocalError "log_msg"), self)).
Proof.
  intros Hsplit emits. subst emits. simpl.
  rewrite log_IEM_eq. unfold status_and_reason. rewrite Hsplit. simpl.
  split_and!.
  - unfold iem_log_msg. intros [-> | ->]; by eexists.
  - unfold iem_log_msg. intros [-> | ->]; by eexists.
  - unfold iem_log_msg. intros -> ->. by eexists.
  - unfold iem_log_msg. intros -> ->. by eexists.
  - intros Hstate. by rewrite (iem_log_msg_unassigned state reason Hstate).
Qed.

Lemma log_IEM_mapping_witness :
  (∃ self',
     _log_IEM (sample_drive "FAILED_Smart_threshold" "SN42") one_ok
     = (Returned (), self')
     ∧ msgQ self'
       = [(LoggingMsgHandler,
           LoggingRequest "LOG_WARNING" "IEM"
             "IEC: 020002002: SMART validation test has failed"
             {| enclosure_serial_number := PStr "ENC1";
                disk_serial_number := PStr "SN42";
                slot := PStr "3";
                status := "FAILED";
                reason := "Smart_threshold" |})]
     ∧ but_msgQ self' = but_msgQ one_ok)
  ∧ _log_IEM (sample_drive "Degraded_none" "SN42") one_ok
    = (Raised (UnboundLocalError "log_msg"), one_ok).
Proof.
  split.
  - apply (log_IEM_mapping (sample_drive "FAILED_Smart_threshold" "SN42")
             one_ok "FAILED" "Smart_threshold");
      reflexivity.
  - apply (log_IEM_mapping (sample_drive "Degraded_none" "SN42")
             one_ok "Degraded" "none"); [reflexivity |].
    vm_compute. intros H.
    repeat (apply elem_of_cons in H as [H|H]; [discriminate |]).
    by apply elem_of_nil in H.
Defined.

(** ** What a computation leaves unchanged *)

Section frame.
Context {B : Type} (f : handler → B).

Lemma keeps_ret {A} (a : A) : keeps (same_on f) (ret a).
Proof. by intros self. Qed.

Lemma keeps_raise {A} (e : exn) : keeps (same_on f) (raise (A := A) e).
Proof. by intros self. Qed.

Lemma keeps_lift {A} (r : result A) : keeps (same_on f) (lift r).
Proof. by intros self. Qed.

Lemma keeps_gets {A} (g : handler → A) : keeps (same_on f) (gets g).
Proof. by intros self. Qed.

Lemma keeps_modify (g : handler → handler) :
  (∀ self, f (g self) = f self) → keeps (same_on f) (modify g).
Proof. intros H self. apply H. Qed.

Lemma keeps_bind {A C} (c : M A) (k : A → M C) :
  keeps (same_on f) c → (∀ a, keeps (same_on f) (k a)) →
  keeps (same_on f) (bind c k).
Proof.
  intros Hc Hk self. unfold same_on, bind.
  specialize (Hc self). unfold same_on in Hc.
  destruct (c self) as [[a|e] self']; simpl in *; [| done].
  specialize (Hk a self'). unfold same_on in Hk. congruence.
Qed.

Lemma keeps_try_except {A} (c : M A) (h : exn → M A) :
  keeps (same_on f) c → (∀ e, keeps (same_on f) (h e)) →
  keeps (same_on f) (try_except c h).
Proof.
  intros Hc Hh self. unfold same_on, try_except.
  specialize (Hc self). unfold same_on in Hc.
  destruct (c self) as [[a|e] self']; simpl in *; [done |].
  specialize (Hh e self'). unfold same_on in Hh. congruence.
Qed.

Lemma keeps_for_fold {A S} (l : list A) (s : S) (body : S → A → M S) :
  (∀ s a, keeps (same_on f) (body s a)) →
  keeps (same_on f) (for_fold l s body).
Proof.
  intros Hbody. revert s.
  induction l as [|a l IH]; intros s; simpl.
  - apply keeps_ret.
  - apply keeps_bind; [apply Hbody | intros s'; apply IH].
Qed.

Lemma keeps_for_each {A} (l : list A) (body : A → M unit) :
  (∀ a, keeps (same_on f) (body a)) → keeps (same_on f) (for_each l body).
Proof. intros Hbody. apply keeps_for_fold. intros _ a. apply Hbody. Qed.

End frame.

Section requests.

Lemma incidents_egress (q : list (module_name * payload)) (jsonMsg : payload) :
  filter (λ m, m.1 = LoggingMsgHandler) (q ++ [(RabbitMQegressProcessor, jsonMsg)])
  = filter (λ m, m.1 = LoggingMsgHandler) q.
Proof. rewrite filter_app. simpl. apply app_nil_r. Qed.

Lemma egress_keeps (jsonMsg : payload) :
  keeps (same_on but_egress)
    (_write_internal_msgQ RabbitMQegressProcessor jsonMsg).
Proof.
  intros self. unfold same_on, but_egress, incidents. simpl.
  by rewrite incidents_egress.
Qed.

Lemma ack_keeps (request : pyval) (response : string) (uuid : pyval) :
  keeps (same_on but_egress) (ack request response uuid).
Proof. apply egress_keeps. Qed.

Lemma disk_smart_test_keeps (serial_number node_request uuid : pyval) :
  keeps (same_on but_egress) (disk_smart_test serial_number node_request uuid).
Proof.
  unfold disk_smart_test. apply keeps_bind; [apply keeps_gets |]. intros d.
  case_bool_decide.
  - apply keeps_for_each. intros sn.
    apply keeps_bind; [apply keeps_lift |]. intros drive.
    apply keeps_bind; [apply keeps_lift |]. intros response.
    apply ack_keeps.
  - apply keeps_bind; [| intros response; apply ack_keeps].
    destruct (Py.get d serial_number); [apply keeps_lift | apply keeps_ret].
Qed.

Lemma drvmngr_status_keeps (serial_number node_request uuid : pyval) :
  keeps (same_on but_egress) (drvmngr_status serial_number node_request uuid).
Proof.
  unfold drvmngr_status. apply keeps_bind; [apply keeps_gets |]. intros d.
  case_bool_decide.
  - apply keeps_bind; [| intros _; apply ack_keeps].
    apply keeps_for_each. intros sn.
    apply keeps_bind; [apply keeps_lift |]. intros drive. apply egress_keeps.
  - apply keeps_bind; [apply keeps_lift |]. intros stored. simpl.
    apply keeps_bind; [apply egress_keeps | intros _; apply ack_keeps].
Qed.

Lemma hpi_status_keeps (serial_number node_request uuid : pyval) :
  keeps (same_on but_egress) (hpi_status serial_number node_request uuid).
Proof.
  unfold hpi_status. apply keeps_bind; [apply keeps_gets |]. intros d.
  case_bool_decide.
  - apply keeps_bind; [| intros _; apply ack_keeps].
    apply keeps_for_each. intros sn.
    apply keeps_bind; [apply keeps_lift |]. intros drive. apply egress_keeps.
  - apply keeps_bind; [apply keeps_lift |]. intros stored. simpl.
    apply keeps_bind; [apply egress_keeps | intros _; apply ack_keeps].
Qed.

(** A message that is no event changes nothing but the egress queue. *)
Lemma process_no_event (now : string) (jsonMsg : message) (self : handler) :
  msg_get jsonMsg "sensor_response_type" = PNone →
  same_on but_egress self (process now jsonMsg self).
Proof.
  intros Hresp. unfold process, _process_msg. rewrite Hresp. simpl.
  destruct (is_not_None (msg_get jsonMsg "sensor_request_type")); [| done].
  repeat case_bool_decide.
  - apply disk_smart_test_keeps.
  - apply drvmngr_status_keeps.
  - apply hpi_status_keeps.
  - done.
Qed.

End requests.

(** ** Dictionaries *)

Section dictionaries.
Context {V : Type}.

Lemma get_setitem (d : Py.dict V) (k k' : pyval) (v : V) :
  Py.get (Py.setitem d k v) k'
  = if decide (k = k') then Some v else Py.get d k'.
Proof.
  induction d as [|[k0 v0] d IH]; simpl.
  - by destruct (decide (k = k')).
  - destruct (decide (k0 = k)) as [->|Hne]; simpl.
    + by destruct (decide (k = k')).
    + destruct (decide (k0 = k')) as [->|Hne']; [| apply IH].
      by rewrite decide_False.
Qed.

Lemma get_setitem_eq (d : Py.dict V) (k : pyval) (v : V) :
  Py.get (Py.setitem d k v) k = Some v.
Proof. by rewrite get_setitem, decide_True. Qed.


Lemma get_setitem_is_Some (d : Py.dict V) (k k' : pyval) (v : V) :
  is_Some (Py.get d k') → is_Some (Py.get (Py.setitem d k v) k').
Proof. rewrite get_setitem. by destruct (decide (k = k')). Qed.

End dictionaries.

(** ** Events *)

Section events.

Lemma serialize_disk_status_report (now : string) (self : handler) :
  ∃ self', _serialize_disk_status now self = (Returned (), self')
           ∧ but_dmreport self' = but_dmreport self
           ∧ report_of_view now (dmreport_file self) self'.
Proof.
  destruct (serialize_disk_status_cases now self) as [(l & -> & Hl)|[-> _]];
    eexists; (split; [done |]); (split; [done |]).
  - right. by exists l.
  - by left.
Qed.

Lemma drivemanager_update_eq (now : string) (serial_number : pyval)
    (drive : Drive) (self : handler) :
  drivemanager_update now serial_number drive self
  = match (if status_changed (_drvmngr_drives self) serial_number drive
           then _log_IEM drive
           else ret ())
            (set_msgQ
               (msgQ self ++ [(RabbitMQegressProcessor,
                               toDriveMngrJsonMsg drive PNone)]) self) with
    | (Returned _, self') =>
        _serialize_disk_status now
          (set_drvmngr_drives
             (Py.setitem (_drvmngr_drives self') serial_number drive) self')
    | (Raised e, self') => (Raised e, self')
    end.
Proof.
  unfold drivemanager_update, bind, gets, modify, _write_internal_msgQ. simpl.
  destruct (status_changed (_drvmngr_drives self) serial_number drive); [| done].
  by destruct (_log_IEM drive _) as [[[]|e] self'].
Qed.

(** A drive-manager event with a valid drive: either the status changed and
    [_log_IEM] raises, leaving only the forwarded message behind; or the
    method returns with the drive stored and the report written, having
    written an incident exactly when the status changed. *)
Lemma drivemanager_update_cases (now : string) (serial_number : pyval)
    (drive : Drive) (self : handler) :
  let out := (RabbitMQegressProcessor, toDriveMngrJsonMsg drive PNone) in
  (∃ e, status_changed (_drvmngr_drives self) serial_number drive = true
        ∧ (∀ s, _log_IEM drive s = (Raised e, s))
        ∧ drivemanager_update now serial_number drive self
          = (Raised e, set_msgQ (msgQ self ++ [out]) self))
  ∨ (∃ q self',
       drivemanager_update now serial_number drive self = (Returned (), self')
       ∧ ((status_changed (_drvmngr_drives self) serial_number drive = false
           ∧ q = [])
          ∨ (status_changed (_drvmngr_drives self) serial_number drive = true
             ∧ ∃ m, q = [(LoggingMsgHandler, m)]))
       ∧ _host_id self' = _host_id self
       ∧ _hpi_drives self' = _hpi_drives self
       ∧ _drvmngr_drives self'
         = Py.setitem (_drvmngr_drives self) serial_number drive
       ∧ msgQ self' = msgQ self ++ out :: q
       ∧ report_of_view now (dmreport_file self) self').
Proof.
  intros out. rewrite drivemanager_update_eq. fold out.
  destruct (status_changed (_drvmngr_drives self) serial_number drive) eqn:Hch.
  - destruct (log_IEM_cases drive) as [[e He]|[m Hm]].
    + left. exists e. by rewrite He.
    + right. rewrite Hm.
      match goal with
      | |- context [_serialize_disk_status now ?X] =>
          destruct (serialize_disk_status_report now X)
            as (self' & Hser & Hsame & Hrep)
      end.
      rewrite Hser. injection Hsame as Hh Hd Hhpi Hq. simpl in *.
      exists [(LoggingMsgHandler, m)], self'. split_and!; try done.
      * right. eauto.
      * by rewrite Hq, <- app_assoc.
  - right. unfold ret.
    match goal with
    | |- context [_serialize_disk_status now ?X] =>
        destruct (serialize_disk_status_report now X)
          as (self' & Hser & Hsame & Hrep)
    end.
    rewrite Hser. injection Hsame as Hh Hd Hhpi Hq. simpl in *.
    exists [], self'. split_and!; try done. by left.
Qed.

End events.

(** ** Inventory events *)

Section inventory.

(** A field of a split does not contain the separator. *)
Lemma split_field (sep : ascii) (s w : string) :
  w ∈ Py.split sep s → Py.contains (String sep EmptyString) w = false.
Proof.
  revert w. induction s as [|c s IH]; intros w; simpl.
  - intros Hw. apply list_elem_of_singleton in Hw as ->. done.
  - destruct (ascii_dec c sep) as [->|Hne].
    + rewrite Ascii.eqb_refl. intros [->|Hw]%elem_of_cons; [done | by apply IH].
    + pose proof Hne as Hb. apply Ascii.eqb_neq in Hb. rewrite Hb.
      pose proof (split_nonempty sep s).
      destruct (Py.split sep s) as [|w0 ws]; [done |].
      intros [->|Hw]%elem_of_cons.
      * simpl. destruct (ascii_dec sep c) as [->|_]; [done |].
        simpl. apply IH. by left.
      * apply IH. by right.
Qed.

Lemma split_status_path (e n : string) :
  Py.split "/" (((e +:+ "/disk/") +:+ n) +:+ "/status")
  = Py.split "/" e ++ ["disk"] ++ Py.split "/" n ++ ["status"].
Proof.
  rewrite !append_assoc.
  change (e +:+ "/disk/" +:+ n +:+ "/status")
    with (e +:+ String "/" ("disk" +:+ String "/" (n +:+ String "/" "status"))).
  by rewrite !split_join.
Qed.

(** The drive of an HPI event has the first and third segments of its path
    as enclosure and drive number. *)
Lemma hpi_drive_parsed (host_id : string) (jsonMsg : message) (drive : Drive) :
  hpi_drive host_id jsonMsg = Some drive →
  ∃ p e n, msg_get jsonMsg "event_path" = PStr p
           ∧ Py.split "/" p !! 0 = Some e
           ∧ Py.split "/" p !! 2 = Some n
           ∧ drive
             = set_parsed
                 (Drive_init host_id (PStr p)
                    (msg_get jsonMsg "status") (msg_get jsonMsg "serialNumber")
                    (msg_get jsonMsg "drawer") (msg_get jsonMsg "location")
                    (msg_get jsonMsg "manufacturer")
                    (msg_get jsonMsg "productName")
                    (msg_get jsonMsg "productVersion") (msg_get jsonMsg "wwn"))
                 (PStr e) (PStr n) NA.
Proof.
  unfold hpi_drive, parse_hpi_path, hpi_path_body. simpl.
  destruct (msg_get jsonMsg "event_path") as [|p|z]; simpl; try done.
  destruct (Py.split "/" p) as [|e [|d [|n l]]] eqn:Hsplit; simpl; try done.
  intros [= <-]. exists p, e, n. by rewrite Hsplit.
Qed.

(** The path synthesized from the drive of an HPI event always parses,
    into the same enclosure and drive number. *)
Lemma drv_mngr_drive_of_hpi_drive (host_id : string) (jsonMsg : message)
    (drive : Drive) :
  hpi_drive host_id jsonMsg = Some drive →
  ∃ e n, get_drive_enclosure drive = PStr e
         ∧ get_drive_num drive = PStr n
         ∧ drv_mngr_drive_of host_id jsonMsg drive
           = Returned (Some (synthesized host_id jsonMsg e n)).
Proof.
  intros (p & e & n & Hp & He & Hn & ->)%hpi_drive_parsed.
  exists e, n. split_and!; try done.
  unfold drv_mngr_drive_of, parse_drive_mngr_path, drive_mngr_path_body. simpl.
  rewrite split_status_path.
  rewrite (split_one_field "/" e), (split_one_field "/" n); [done | |].
  - apply (split_field "/" p). by eapply list_elem_of_lookup_2.
  - apply (split_field "/" p). by eapply list_elem_of_lookup_2.
Qed.

End inventory.

(** ** The dispatcher on events *)

Section dispatch.

Lemma process_msg_drivemanager (now : string) (jsonMsg : message) (self : handler) :
  msg_get jsonMsg "sensor_response_type" = PStr "disk_status_drivemanager" →
  _process_msg now jsonMsg self
  = match drivemanager_drive (_host_id self) (_hpi_drives self) jsonMsg with
    | None => (Returned (), self)
    | Some drive =>
        drivemanager_update now (msg_get jsonMsg "serial_number") drive self
    end.
Proof.
  intros Hresp. unfold _process_msg. rewrite Hresp. simpl.
  unfold disk_status_drivemanager, bind, gets. simpl.
  by destruct (drivemanager_drive _ _ _).
Qed.

Lemma process_msg_hpi (now : string) (jsonMsg : message) (self : handler) :
  msg_get jsonMsg "sensor_response_type" = PStr "disk_status_hpi" →
  _process_msg now jsonMsg self = disk_status_hpi now jsonMsg self.
Proof. intros Hresp. unfold _process_msg. by rewrite Hresp. Qed.

Lemma process_msg_other_event (now : string) (jsonMsg : message) (self : handler) :
  msg_get jsonMsg "sensor_response_type" ≠ PNone →
  msg_get jsonMsg "sensor_response_type" ≠ PStr "disk_status_drivemanager" →
  msg_get jsonMsg "sensor_response_type" ≠ PStr "disk_status_hpi" →
  _process_msg now jsonMsg self = (Returned (), self).
Proof.
  intros Hnone Hdm Hhpi. unfold _process_msg.
  assert (is_not_None (msg_get jsonMsg "sensor_response_type") = true) as ->
    by (by destruct (msg_get jsonMsg "sensor_response_type")).
  by rewrite !bool_decide_eq_false_2.
Qed.

(** An inventory event: dropped when its path is not valid; otherwise the
    record is stored in the inventory view, the synthesized record in the
    drive-manager view, the report is written and the inventory message
    forwarded. *)
Lemma disk_status_hpi_cases (now : string) (jsonMsg : message) (self : handler) :
  match hpi_drive (_host_id self) jsonMsg with
  | None => disk_status_hpi now jsonMsg self = (Returned (), self)
  | Some drive =>
      ∃ e n self',
        get_drive_enclosure drive = PStr e
        ∧ get_drive_num drive = PStr n
        ∧ disk_status_hpi now jsonMsg self = (Returned (), self')
        ∧ _host_id self' = _host_id self
        ∧ _hpi_drives self'
          = Py.setitem (_hpi_drives self) (msg_get jsonMsg "serialNumber") drive
        ∧ _drvmngr_drives self'
          = Py.setitem (_drvmngr_drives self) (msg_get jsonMsg "serialNumber")
              (synthesized (_host_id self) jsonMsg e n)
        ∧ msgQ self'
          = msgQ self ++ [(RabbitMQegressProcessor, toHPIjsonMsg drive PNone)]
        ∧ report_of_view now (dmreport_file self) self'
  end.
Proof.
  unfold disk_status_hpi, bind, gets, modify, lift. simpl.
  destruct (hpi_drive (_host_id self) jsonMsg) as [drive|] eqn:Hdrive; [| done].
  destruct (drv_mngr_drive_of_hpi_drive _ _ _ Hdrive) as (e & n & He & Hn & ->).
  exists e, n.
  match goal with
  | |- context [_serialize_disk_status now ?X] =>
      destruct (serialize_disk_status_report now X)
        as (self' & Hser & Hsame & Hrep)
  end.
  rewrite Hser. injection Hsame as Hh Hd Hhpi Hq. simpl in *.
  eexists. split_and!; try done. simpl. by rewrite Hq.
Qed.




End dispatch.

(** ** Replaying an event *)




(** ** The order of the report *)

Section order.

Lemma entry_of_functional (item : pyval * Drive) (a b : report_entry) :
  entry_of item a → entry_of item b → a = b.
Proof.
  destruct a as [sa ta ra], b as [sb tb rb].
  intros [Hsa Ha] [Hsb Hb]. simpl in *. congruence.
Qed.

Lemma entries_functional (items : list (pyval * Drive)) (l l' : list report_entry) :
  Forall2 entry_of items l → Forall2 entry_of items l' → l = l'.
Proof.
  intros H. revert l'. induction H as [|item a items l Ha _ IH]; intros l' H'.
  - by inversion H'.
  - inversion H' as [|? b ? l'' Hb Hl'']; subst.
    f_equal; [by eapply entry_of_functional | by apply IH].
Qed.

(** Whatever the message, the report file is untouched or has one more
    document, written from the drive-manager view as the message left it. *)
Lemma process_report_of_view (now : string) (jsonMsg : message) (self : handler) :
  report_of_view now (dmreport_file self) (process now jsonMsg self).
Proof.
  unfold process.
  destruct (decide (msg_get jsonMsg "sensor_response_type" = PNone)) as [Hno|Hev].
  { left. pose proof (process_no_event now jsonMsg self Hno) as H.
    unfold same_on, but_egress, but_msgQ, process in H. congruence. }
  destruct (decide (msg_get jsonMsg "sensor_response_type"
                    = PStr "disk_status_drivemanager")) as [Hdm|Hdm].
  { rewrite (process_msg_drivemanager now jsonMsg self Hdm).
    destruct (drivemanager_drive (_host_id self) (_hpi_drives self) jsonMsg)
      as [drive|]; [| by left].
    destruct (drivemanager_update_cases now (msg_get jsonMsg "serial_number")
                drive self)
      as [(e & _ & _ & ->)|(q & self' & -> & _ & _ & _ & _ & _ & Hrep)];
      [by left | done]. }
  destruct (decide (msg_get jsonMsg "sensor_response_type"
                    = PStr "disk_status_hpi")) as [Hhpi|Hhpi].
  { rewrite (process_msg_hpi now jsonMsg self Hhpi).
    pose proof (disk_status_hpi_cases now jsonMsg self) as H.
    destruct (hpi_drive (_host_id self) jsonMsg) as [drive|].
    - by destruct H as (e & n & self' & _ & _ & -> & _ & _ & _ & _ & Hrep).
    - rewrite H. by left. }
  rewrite process_msg_other_event by done. by left.
Qed.

Lemma not_one_more {A} (l : list A) (a : A) : l ≠ l ++ [a].
Proof.
  intros H. apply (f_equal length) in H. rewrite length_app in H.
  simpl in H. lia.
Qed.

End order.

(** C7 does not hold for the order of the keys: after events for the
    serial numbers ["c"] and then ["b"], the drives of the report are in
    the order of the dictionary, ["c"] before ["b"]. *)
Lemma report_sorted_by_key_counterexample :
  (λ r, entry_serial_number <$> drives r)
    <$> last (dmreport_file
                (run [("Mon Mar  2 10:00:00 2015",
                       drivemanager_event "ENC1/disk/3/status" "ok_none" "c");
                      ("Mon Mar  2 10:00:05 2015",
                       drivemanager_event "ENC1/disk/4/status" "ok_none" "b")]
                   (initialize "node1" false [])))
  = Some [PStr "c"; PStr "b"]
  ∧ ¬ Sorted (λ a b, Py.le a b = true) [PStr "c"; PStr "b"].
Proof.
  split; [reflexivity |].
  intros H. inversion H as [|? ? _ Hhd]; subst.
  inversion Hhd as [|? ? Hle]; subst. vm_compute in Hle. discriminate.
Qed.

(** C7, as the code has it. Whenever processing a message writes a
    report, the drives of the report are those of the whole drive-manager
    view as the message left it, one entry per record in the order in which
    the dictionary is iterated (no sorting by serial number); two reports
    written from the same view, iterated in the same order, have the same
    drives in the same order. *)
Theorem report_in_dictionary_order (now : string) (jsonMsg : message)
    (self : handler) (r : DurableReport) :
  dmreport_file (process now jsonMsg self) = dmreport_file self ++ [r] →
  Forall2 entry_of
    (Py.iteritems (_drvmngr_drives (process now jsonMsg self))) (drives r)
  ∧ ∀ now' jsonMsg' self' r',
      dmreport_file (process now' jsonMsg' self') = dmreport_file self' ++ [r'] →
      _drvmngr_drives (process now' jsonMsg' self')
        = _drvmngr_drives (process now jsonMsg self) →
      drives r' = drives r.
Proof.
  intros Hfile.
  assert (Hr : Forall2 entry_of
                 (_drvmngr_drives (process now jsonMsg self)) (drives r)).
  { destruct (process_report_of_view now jsonMsg self) as [H|(l & H & Hl)];
      rewrite H in Hfile.
    - by apply not_one_more in Hfile.
    - apply app_inv_head in Hfile. by injection Hfile as <-. }
  split; [exact Hr |].
  intros now' jsonMsg' self' r' Hfile' Hview.
  destruct (process_report_of_view now' jsonMsg' self') as [H|(l & H & Hl)];
    rewrite H in Hfile'.
  - by apply not_one_more in Hfile'.
  - apply app_inv_head in Hfile'. injection Hfile' as <-. simpl.
    rewrite Hview in Hl. by eapply entries_functional.
Qed.

Lemma report_in_dictionary_order_witness :
  Forall2 entry_of
    [(PStr "c", sample_drive "ok_none" "c");
     (PStr "b",
      (parse_drive_mngr_path
         (Drive4 "node1" (PStr "ENC1/disk/4/status") (PStr "failed_smart")
            (PStr "b"))).2)]
    [{| entry_serial_number := PStr "c"; entry_status := "ok";
        entry_reason := "none" |};
     {| entry_serial_number := PStr "b"; entry_status := "failed";
        entry_reason := "smart" |}].
Proof.
  apply (report_in_dictionary_order "Mon Mar  2 10:00:05 2015"
           (drivemanager_event "ENC1/disk/4/status" "failed_smart" "b")
           (sample_handler [(PStr "c", sample_drive "ok_none" "c")])
           {| last_update_time := "Mon Mar  2 10:00:05 2015";
              drives :=
                [{| entry_serial_number := PStr "c"; entry_status := "ok";
                    entry_reason := "none" |};
                 {| entry_serial_number := PStr "b"; entry_status := "failed";
                    entry_reason := "smart" |}] |}).
  reflexivity.
Defined.

(** ** The two views *)

Section views.

Lemma views_consistent_process (now : string) (jsonMsg : message) (self : handler) :
  views_consistent self → views_consistent (process now jsonMsg self).
Proof.
  intros Hinv. unfold process.
  destruct (decide (msg_get jsonMsg "sensor_response_type" = PNone)) as [Hno|Hev].
  { pose proof (process_no_event now jsonMsg self Hno) as H.
    unfold same_on, but_egress, but_msgQ, process in H.
    injection H as _ Hd Hhpi _ _ _. intros sn. rewrite Hd, Hhpi. apply Hinv. }
  destruct (decide (msg_get jsonMsg "sensor_response_type"
                    = PStr "disk_status_drivemanager")) as [Hdm|Hdm].
  { rewrite (process_msg_drivemanager now jsonMsg self Hdm).
    destruct (drivemanager_drive (_host_id self) (_hpi_drives self) jsonMsg)
      as [drive|]; [| done].
    destruct (drivemanager_update_cases now (msg_get jsonMsg "serial_number")
                drive self)
      as [(e & _ & _ & ->)|(q & self' & -> & _ & _ & Hhpi & Hd & _)]; [done |].
    intros sn. simpl. rewrite Hhpi, Hd. intros H.
    by apply get_setitem_is_Some, Hinv. }
  destruct (decide (msg_get jsonMsg "sensor_response_type"
                    = PStr "disk_status_hpi")) as [Hhpi|Hhpi].
  { rewrite (process_msg_hpi now jsonMsg self Hhpi).
    pose proof (disk_status_hpi_cases now jsonMsg self) as H.
    destruct (hpi_drive (_host_id self) jsonMsg) as [drive|].
    - destruct H as (e & n & self' & _ & _ & -> & _ & Hhpi' & Hd & _).
      intros sn. simpl. rewrite Hhpi', Hd, !get_setitem.
      destruct (decide (msg_get jsonMsg "serialNumber" = sn)); [done |].
      apply Hinv.
    - by rewrite H. }
  by rewrite process_msg_other_event.
Qed.

Lemma views_consistent_run (queue : list (string * message)) (self : handler) :
  views_consistent self → views_consistent (run queue self).
Proof.
  revert self. induction queue as [|[now jsonMsg] queue IH]; intros self Hinv.
  - done.
  - apply IH. by apply views_consistent_process.
Qed.

End views.

(** C9. After any sequence of messages processed from the empty stores,
    every serial number of the inventory view has an entry in the
    drive-manager view. The entry is put there with the inventory record:
    an inventory event whose path is valid stores its record in the
    inventory view and, in the drive-manager view under the same serial
    number, the record synthesized from the enclosure and drive number of
    that record under the path [enclosure/disk/number/status]. *)
Theorem inventory_in_drive_manager_view (host_id : string) (dir : bool)
    (file : list DurableReport) (queue : list (string * message)) :
  let self := run queue (initialize host_id dir file) in
  (∀ serial_number,
     is_Some (Py.get (_hpi_drives self) serial_number) →
     is_Some (Py.get (_drvmngr_drives self) serial_number))
  ∧ (∀ now jsonMsg drive,
       msg_get jsonMsg "sensor_response_type" = PStr "disk_status_hpi" →
       hpi_drive (_host_id self) jsonMsg = Some drive →
       ∃ e n,
         get_drive_enclosure drive = PStr e
         ∧ get_drive_num drive = PStr n
         ∧ Py.get (_hpi_drives (process now jsonMsg self))
             (msg_get jsonMsg "serialNumber") = Some drive
         ∧ Py.get (_drvmngr_drives (process now jsonMsg self))
             (msg_get jsonMsg "serialNumber")
           = Some (synthesized (_host_id self) jsonMsg e n)).
Proof.
  intros self. split.
  - apply views_consistent_run. intros sn [drive Hdrive]. discriminate.
  - intros now jsonMsg drive Hhpi Hdrive. unfold process.
    rewrite (process_msg_hpi now jsonMsg self Hhpi).
    pose proof (disk_status_hpi_cases now jsonMsg self) as H.
    rewrite Hdrive in H.
    destruct H as (e & n & self' & He & Hn & -> & _ & Hhpi' & Hd & _).
    exists e, n. simpl. rewrite Hhpi', Hd, !get_setitem_eq. done.
Qed.

Lemma inventory_in_drive_manager_view_witness :
  is_Some
    (Py.get
       (_drvmngr_drives
          (run [("Mon Mar  2 10:00:00 2015",
                 hpi_event "ENC1/disk/3" "ok_none" "SN42")]
             (initialize "node1" false [])))
       (PStr "SN42")).
Proof.
  apply (inventory_in_drive_manager_view "node1" false []
           [("Mon Mar  2 10:00:00 2015",
             hpi_event "ENC1/disk/3" "ok_none" "SN42")]).
  vm_compute. eexists. reflexivity.
Defined.

(** ** A changed status that cannot be logged *)

Section unloggable.

Lemma split_length_positive (sep : ascii) (s : string) :
  1 ≤ length (Py.split sep s).
Proof.
  pose proof (split_nonempty sep s).
  destruct (Py.split sep s); [done | simpl; lia].
Qed.

(** A path of at least four segments makes a valid drive, which keeps the
    status and the serial number it was built with. *)
Lemma parse_drive_mngr_path_valid (host_id p : string) (st sn : pyval) :
  4 ≤ length (Py.split "/" p) →
  ∃ drive, parse_drive_mngr_path (Drive4 host_id (PStr p) st sn) = (true, drive)
           ∧ get_drive_status drive = st.
Proof.
  intros Hlen. unfold parse_drive_mngr_path, drive_mngr_path_body. simpl.
  destruct (Py.split "/" p) as [|e [|d [|n [|f l]]]]; simpl in Hlen; try lia.
  simpl. by eexists.
Qed.

(** The path made for an object-path event always has four segments. *)
Lemma object_event_path_valid (hpi_drives : Py.dict Drive) (serial_number : pyval) :
  ∃ p, object_event_path hpi_drives serial_number = PStr p
       ∧ 4 ≤ length (Py.split "/" p).
Proof.
  unfold object_event_path, rbind.
  destruct (Py.getitem hpi_drives serial_number) as [hpi_drive|ke].
  2: { eexists. split; [done |]. simpl. lia. }
  unfold status_path, rbind.
  destruct (get_drive_enclosure hpi_drive) as [|e|ze]; simpl.
  1,3: eexists; split; [done |]; simpl; lia.
  destruct (get_drive_num hpi_drive) as [|n|zn]; simpl.
  1,3: eexists; split; [done |]; simpl; lia.
  eexists. split; [done |].
  rewrite split_status_path, !length_app. simpl.
  pose proof (split_length_positive "/" e).
  pose proof (split_length_positive "/" n). lia.
Qed.

Lemma accepted_drive (host_id : string) (hpi_drives : Py.dict Drive)
    (jsonMsg : message) :
  (∃ p, msg_get jsonMsg "event_path" = PStr p ∧ 4 ≤ length (Py.split "/" p))
  ∨ (msg_get jsonMsg "event_path" = PNone
     ∧ msg_get jsonMsg "object_path" ≠ PNone) →
  ∃ drive, drivemanager_drive host_id hpi_drives jsonMsg = Some drive
           ∧ get_drive_status drive = msg_get jsonMsg "status".
Proof.
  unfold drivemanager_drive.
  intros [(p & -> & Hlen)|[-> Hobj]]; simpl.
  - destruct (parse_drive_mngr_path_valid host_id p (msg_get jsonMsg "status")
                (msg_get jsonMsg "serial_number") Hlen) as (drive & -> & Hst).
    by exists drive.
  - assert (is_not_None (msg_get jsonMsg "object_path") = true) as ->
      by (by destruct (msg_get jsonMsg "object_path")).
    destruct (object_event_path_valid hpi_drives (msg_get jsonMsg "serial_number"))
      as (p & -> & Hlen).
    destruct (parse_drive_mngr_path_valid host_id p (msg_get jsonMsg "status")
                (msg_get jsonMsg "serial_number") Hlen) as (drive & -> & Hst).
    by exists drive.
Qed.

End unloggable.




(** * Further properties of the module *)

(** ** Drive: the two parsers *)

(** X1. For a path string of at least three segments [parse_hpi_path]
    returns [True], and the drive after the call has segment 0 as its
    enclosure and segment 2 as its drive number; its filename and the rest
    are as they were. With fewer than three segments it returns [False]
    and leaves the drive as it was. *)
Theorem parse_hpi_path_segments (self : Drive) (p : string) :
  _path self = PStr p →
  (3 ≤ length (Py.split "/" p) →
     ∃ e n,
       Py.split "/" p !! 0 = Some e ∧
       Py.split "/" p !! 2 = Some n ∧
       (parse_hpi_path self).1 = true ∧
       _enclosure (parse_hpi_path self).2 = PStr e ∧
       _drive_num (parse_hpi_path self).2 = PStr n ∧
       _filename (parse_hpi_path self).2 = _filename self ∧
       same_constructed self (parse_hpi_path self).2)
  ∧ (length (Py.split "/" p) < 3 → parse_hpi_path self = (false, self)).
Proof.
  intros Hp. unfold parse_hpi_path, hpi_path_body. rewrite Hp. simpl. split.
  - intros Hlen.
    destruct (Py.split "/" p) as [|e [|d [|n l]]]; simpl in Hlen; try lia.
    exists e, n. simpl. by repeat split.
  - intros Hlen.
    destruct (Nat.ltb_spec (length (Py.split "/" p)) 3) as [_|Hge]; [done | lia].
Qed.

Lemma parse_hpi_path_segments_witness :
  (let drive :=
     (parse_hpi_path
        (Drive4 "node1" (PStr "ENC1/disk/3/extra") (PStr "ok_none")
           (PStr "SN42"))).2 in
   _enclosure drive = PStr "ENC1"
   ∧ _drive_num drive = PStr "3"
   ∧ _filename drive = NA
   ∧ _path drive = PStr "ENC1/disk/3/extra"
   ∧ _status drive = PStr "ok_none"
   ∧ _serialNumber drive = PStr "SN42")
  ∧ parse_hpi_path
      (Drive4 "node1" (PStr "ENC1/disk") (PStr "ok_none") (PStr "SN42"))
    = (false, Drive4 "node1" (PStr "ENC1/disk") (PStr "ok_none") (PStr "SN42")).
Proof.
  split.
  - destruct (parse_hpi_path_segments
                (Drive4 "node1" (PStr "ENC1/disk/3/extra") (PStr "ok_none")
                   (PStr "SN42"))
                "ENC1/disk/3/extra" eq_refl) as [H _].
    destruct H as (e & n & He & Hn & _ & Henc & Hnum & Hfile & Hsame);
      [simpl; lia |].
    destruct Hsame as (_ & Hpath & Hstatus & Hserial & _).
    simpl in He, Hn. simplify_eq. cbv zeta.
    by rewrite Henc, Hnum, Hfile, Hpath, Hstatus, Hserial.
  - apply (parse_hpi_path_segments
             (Drive4 "node1" (PStr "ENC1/disk") (PStr "ok_none") (PStr "SN42"))
             "ENC1/disk" eq_refl).
    simpl. lia.
Defined.

(** X2. A path that is not a string ([None] for a missing key, a number):
    the exception of [split] is caught in the parser, and both parsers
    return [False] and leave the drive as it was. *)
Theorem parse_path_not_a_string (self : Drive) :
  (∀ p, _path self ≠ PStr p) →
  parse_drive_mngr_path self = (false, self)
  ∧ parse_hpi_path self = (false, self).
Proof.
  intros Hp. unfold parse_drive_mngr_path, drive_mngr_path_body,
    parse_hpi_path, hpi_path_body.
  destruct (_path self) as [|p|z]; [done | by destruct (Hp p) | done].
Qed.

Lemma parse_path_not_a_string_witness :
  parse_drive_mngr_path (Drive4 "node1" (PInt 7) (PStr "ok_none") (PStr "SN42"))
  = (false, Drive4 "node1" (PInt 7) (PStr "ok_none") (PStr "SN42"))
  ∧ parse_hpi_path (Drive4 "node1" (PInt 7) (PStr "ok_none") (PStr "SN42"))
    = (false, Drive4 "node1" (PInt 7) (PStr "ok_none") (PStr "SN42")).
Proof.
  apply (parse_path_not_a_string
           (Drive4 "node1" (PInt 7) (PStr "ok_none") (PStr "SN42"))).
  intros p. simpl. discriminate.
Defined.

(** ** Requests *)

Section request_loops.





Lemma request_dispatch (now : string) (jsonMsg : message) (self : handler)
    (kind : string) :
  msg_get jsonMsg "sensor_response_type" = PNone →
  msg_get jsonMsg "sensor_request_type" = PStr kind →
  _process_msg now jsonMsg self
  = (if bool_decide (PStr kind = PStr "disk_smart_test") then
       disk_smart_test (msg_get jsonMsg "serial_number")
         (msg_get jsonMsg "node_request") (msg_get jsonMsg "uuid")
     else if bool_decide (PStr kind = PStr "drvmngr_status") then
       drvmngr_status (msg_get jsonMsg "serial_number")
         (msg_get jsonMsg "node_request") (msg_get jsonMsg "uuid")
     else if bool_decide (PStr kind = PStr "hpi_status") then
       hpi_status (msg_get jsonMsg "serial_number")
         (msg_get jsonMsg "node_request") (msg_get jsonMsg "uuid")
     else ret ()) self.
Proof. intros Hresp Hreq. unfold _process_msg. by rewrite Hresp, Hreq. Qed.

End request_loops.







(** ** The SMART test *)







(** X9. A ["disk_smart_test"] request for a serial number (not ["*"]) whose
    stored status is not a string (an event without ["status"] stores
    [None]): lower-casing the status raises [AttributeError], and the
    method stops with nothing written. *)
Theorem smart_test_status_not_a_string (now : string) (jsonMsg : message)
    (self : handler) (serial_number : pyval) (drive : Drive) :
  msg_get jsonMsg "sensor_response_type" = PNone →
  msg_get jsonMsg "sensor_request_type" = PStr "disk_smart_test" →
  msg_get jsonMsg "serial_number" = serial_number →
  serial_number ≠ PStr "*" →
  Py.get (_drvmngr_drives self) serial_number = Some drive →
  (∀ s, get_drive_status drive ≠ PStr s) →
  _process_msg now jsonMsg self = (Raised AttributeError, self).
Proof.
  intros Hresp Hreq Hsn Hstar Hget Hst.
  rewrite (request_dispatch now jsonMsg self "disk_smart_test" Hresp Hreq).
  simpl. unfold disk_smart_test, bind, gets, lift, smart_response.
  rewrite Hsn, bool_decide_eq_false_2, Hget by done.
  destruct (get_drive_status drive) as [|s|z]; [done | by destruct (Hst s) | done].
Qed.

Lemma smart_test_status_not_a_string_witness :
  _process_msg "Mon Mar  2 10:00:05 2015"
    (request "disk_smart_test" "SN42" "X" "u1")
    (process "Mon Mar  2 10:00:00 2015"
       (<["sensor_response_type" := PStr "disk_status_drivemanager"]>
          (<["event_path" := PStr "ENC1/disk/3/status"]>
             (<["serial_number" := PStr "SN42"]> ∅)))
       (initialize "node1" false []))
  = (Raised AttributeError,
     process "Mon Mar  2 10:00:00 2015"
       (<["sensor_response_type" := PStr "disk_status_drivemanager"]>
          (<["event_path" := PStr "ENC1/disk/3/status"]>
             (<["serial_number" := PStr "SN42"]> ∅)))
       (initialize "node1" false [])).
Proof.
  apply (smart_test_status_not_a_string "Mon Mar  2 10:00:05 2015"
           (request "disk_smart_test" "SN42" "X" "u1") _ (PStr "SN42")
           ((parse_drive_mngr_path
               (Drive4 "node1" (PStr "ENC1/disk/3/status") PNone (PStr "SN42"))).2));
    try reflexivity.
  - discriminate.
  - intros s. vm_compute. discriminate.
Defined.

(** ** What a message can change *)

Section preorder.
Context (R : relation handler) `{!PreOrder R}.

Lemma kept_ret {A} (a : A) : keeps R (ret a).
Proof. intros self. simpl. reflexivity. Qed.

Lemma kept_lift {A} (r : result A) : keeps R (lift r).
Proof. intros self. simpl. reflexivity. Qed.

Lemma kept_gets {A} (g : handler → A) : keeps R (gets g).
Proof. intros self. simpl. reflexivity. Qed.

Lemma kept_load_local {A} (name : string) (v : option A) : keeps R (load_local name v).
Proof. intros self. destruct v; simpl; reflexivity. Qed.

Lemma kept_bind {A C} (c : M A) (k : A → M C) :
  keeps R c → (∀ a, keeps R (k a)) → keeps R (bind c k).
Proof.
  intros Hc Hk self. unfold bind. specialize (Hc self).
  destruct (c self) as [[a|e] self']; simpl in *; [| done].
  etrans; [exact Hc | apply Hk].
Qed.

Lemma kept_try_except {A} (c : M A) (h : exn → M A) :
  keeps R c → (∀ e, keeps R (h e)) → keeps R (try_except c h).
Proof.
  intros Hc Hh self. unfold try_except. specialize (Hc self).
  destruct (c self) as [[a|e] self']; simpl in *; [done |].
  etrans; [exact Hc | apply Hh].
Qed.

Lemma kept_for_fold {A S} (l : list A) (s : S) (body : S → A → M S) :
  (∀ s a, keeps R (body s a)) → keeps R (for_fold l s body).
Proof.
  intros Hbody. revert s. induction l as [|a l IH]; intros s; simpl.
  - apply kept_ret.
  - apply kept_bind; [apply Hbody | intros s'; apply IH].
Qed.

Lemma kept_for_each {A} (l : list A) (body : A → M unit) :
  (∀ a, keeps R (body a)) → keeps R (for_each l body).
Proof. intros Hbody. apply kept_for_fold. intros _ a. apply Hbody. Qed.

Lemma kept_modify (g : handler → handler) :
  (∀ self, R self (g self)) → keeps R (modify g).
Proof. intros H self. apply H. Qed.

End preorder.

Section writing.
Context (P : module_name * payload → Prop).

#[global] Instance writes_preorder : PreOrder (writes P).
Proof.
  split.
  - intros self. exists []. by rewrite app_nil_r.
  - intros s1 s2 s3 (q1 & H1 & HP1) (q2 & H2 & HP2).
    exists (q1 ++ q2). rewrite H2, H1, app_assoc. split; [done |].
    by apply Forall_app.
Qed.

Lemma write_writes (toModule : module_name) (jsonMsg : payload) :
  P (toModule, jsonMsg) → keeps (writes P) (_write_internal_msgQ toModule jsonMsg).
Proof. intros HP self. exists [(toModule, jsonMsg)]. by repeat constructor. Qed.

Lemma serialize_writes (now : string) : keeps (writes P) (_serialize_disk_status now).
Proof.
  intros self.
  destruct (serialize_disk_status_report now self) as (self' & -> & Hsame & _).
  injection Hsame as _ _ _ Hq. exists []. by rewrite app_nil_r.
Qed.

End writing.

Section request_writes.
Context (uuid : pyval).

Lemma ack_stamped (request : pyval) (response : string) :
  keeps (writes (stamped uuid)) (ack request response uuid).
Proof. by apply write_writes. Qed.

Lemma disk_smart_test_stamped (serial_number node_request : pyval) :
  keeps (writes (stamped uuid)) (disk_smart_test serial_number node_request uuid).
Proof.
  unfold disk_smart_test. apply kept_bind; [apply _ | apply kept_gets; apply _ |].
  intros d. case_bool_decide.
  - apply kept_for_each; [apply _ |]. intros sn.
    apply kept_bind; [apply _ | apply kept_lift; apply _ |]. intros drive.
    apply kept_bind; [apply _ | apply kept_lift; apply _ |]. intros response.
    apply ack_stamped.
  - apply kept_bind; [apply _ | | intros response; apply ack_stamped].
    destruct (Py.get d serial_number);
      [apply kept_lift | apply kept_ret]; apply _.
Qed.

Lemma drvmngr_status_stamped (serial_number node_request : pyval) :
  keeps (writes (stamped uuid)) (drvmngr_status serial_number node_request uuid).
Proof.
  unfold drvmngr_status. apply kept_bind; [apply _ | apply kept_gets; apply _ |].
  intros d. case_bool_decide.
  - apply kept_bind; [apply _ | | intros _; apply ack_stamped].
    apply kept_for_each; [apply _ |]. intros sn.
    apply kept_bind; [apply _ | apply kept_lift; apply _ |]. intros drive.
    by apply write_writes.
  - apply kept_bind; [apply _ | apply kept_lift; apply _ |]. intros stored. simpl.
    apply kept_bind; [apply _ | by apply write_writes | intros _; apply ack_stamped].
Qed.

Lemma hpi_status_stamped (serial_number node_request : pyval) :
  keeps (writes (stamped uuid)) (hpi_status serial_number node_request uuid).
Proof.
  unfold hpi_status. apply kept_bind; [apply _ | apply kept_gets; apply _ |].
  intros d. case_bool_decide.
  - apply kept_bind; [apply _ | | intros _; apply ack_stamped].
    apply kept_for_each; [apply _ |]. intros sn.
    apply kept_bind; [apply _ | apply kept_lift; apply _ |]. intros drive.
    by apply write_writes.
  - apply kept_bind; [apply _ | apply kept_lift; apply _ |]. intros stored. simpl.
    apply kept_bind; [apply _ | by apply write_writes | intros _; apply ack_stamped].
Qed.

End request_writes.

Lemma no_event_writes (now : string) (jsonMsg : message) (self : handler) :
  msg_get jsonMsg "sensor_response_type" = PNone →
  ∃ q, msgQ (process now jsonMsg self) = msgQ self ++ q
       ∧ Forall (λ m, m.1 = RabbitMQegressProcessor
                      ∧ payload_uuid m.2 = msg_get jsonMsg "uuid") q.
Proof.
  intros Hresp. unfold process, _process_msg. rewrite Hresp. simpl.
  destruct (is_not_None (msg_get jsonMsg "sensor_request_type")).
  - repeat case_bool_decide.
    + apply disk_smart_test_stamped.
    + apply drvmngr_status_stamped.
    + apply hpi_status_stamped.
    + exists []. by rewrite app_nil_r.
  - exists []. by rewrite app_nil_r.
Qed.

(** X10. A message without ["sensor_response_type"] (a request of any
    type, or a message with neither key) changes neither the host id, nor
    the two views, nor the report file and its directory, and writes no
    incident; whatever it writes goes to the egress queue, after what was
    there, and carries the uuid of the message ([None] when it has none).
    This holds whether the method returns or raises. *)
Theorem request_changes_only_egress (now : string) (jsonMsg : message)
    (self : handler) :
  msg_get jsonMsg "sensor_response_type" = PNone →
  but_msgQ (process now jsonMsg self) = but_msgQ self
  ∧ incidents (process now jsonMsg self) = incidents self
  ∧ ∃ q, msgQ (process now jsonMsg self) = msgQ self ++ q
         ∧ Forall (λ m, m.1 = RabbitMQegressProcessor
                        ∧ payload_uuid m.2 = msg_get jsonMsg "uuid") q.
Proof.
  intros Hresp.
  pose proof (process_no_event now jsonMsg self Hresp) as Hsame.
  unfold same_on, but_egress in Hsame.
  split_and!; [exact (f_equal fst Hsame) | exact (f_equal snd Hsame) |].
  by apply no_event_writes.
Qed.

Lemma request_changes_only_egress_witness :
  but_msgQ
    (process "Mon Mar  2 10:00:00 2015" (request "drvmngr_status" "*" "X" "u1")
       two_good)
  = but_msgQ two_good.
Proof.
  apply (request_changes_only_egress "Mon Mar  2 10:00:00 2015"
           (request "drvmngr_status" "*" "X" "u1") two_good).
  reflexivity.
Defined.

(** X11. A message whose ["sensor_response_type"] is none of the two known
    ones, or that has no ["sensor_response_type"] and a
    ["sensor_request_type"] that is none of the three known ones, is
    ignored: the method returns and the handler is as it was, nothing
    written. *)
Theorem unknown_type_ignored (now : string) (jsonMsg : message) (self : handler) :
  (msg_get jsonMsg "sensor_response_type" ≠ PNone
   ∧ msg_get jsonMsg "sensor_response_type" ≠ PStr "disk_status_drivemanager"
   ∧ msg_get jsonMsg "sensor_response_type" ≠ PStr "disk_status_hpi")
  ∨ (msg_get jsonMsg "sensor_response_type" = PNone
     ∧ msg_get jsonMsg "sensor_request_type" ≠ PNone
     ∧ msg_get jsonMsg "sensor_request_type" ≠ PStr "disk_smart_test"
     ∧ msg_get jsonMsg "sensor_request_type" ≠ PStr "drvmngr_status"
     ∧ msg_get jsonMsg "sensor_request_type" ≠ PStr "hpi_status") →
  _process_msg now jsonMsg self = (Returned (), self).
Proof.
  intros [(H1 & H2 & H3)|(Hresp & H1 & H2 & H3 & H4)].
  - by apply process_msg_other_event.
  - unfold _process_msg. rewrite Hresp. simpl.
    assert (is_not_None (msg_get jsonMsg "sensor_request_type") = true) as ->
      by (by destruct (msg_get jsonMsg "sensor_request_type")).
    by rewrite !bool_decide_eq_false_2.
Qed.

Lemma unknown_type_ignored_witness :
  _process_msg "Mon Mar  2 10:00:00 2015"
    (request "fan_status" "SN1" "X" "u1") two_good
  = (Returned (), two_good).
Proof.
  apply (unknown_type_ignored "Mon Mar  2 10:00:00 2015"
           (request "fan_status" "SN1" "X" "u1") two_good).
  right. split_and!; [reflexivity | vm_compute; discriminate ..].
Defined.

(** ** Events that are dropped, and events that are accepted *)

(** X12. An event whose path does not parse is dropped whole: a
    drive-manager event whose event path is a string of fewer than four
    segments or no string at all, or that has neither an event path nor an
    object path, and an inventory event whose event path is a string of
    fewer than three segments or no string (a missing one included). The
    method returns and the handler is as it was: nothing stored, nothing
    forwarded, no report written. *)
Theorem rejected_event_changes_nothing (now : string) (jsonMsg : message)
    (self : handler) :
  (msg_get jsonMsg "sensor_response_type" = PStr "disk_status_drivemanager"
   ∧ ((∃ p, msg_get jsonMsg "event_path" = PStr p
            ∧ length (Py.split "/" p) < 4)
      ∨ (msg_get jsonMsg "event_path" ≠ PNone
         ∧ ∀ p, msg_get jsonMsg "event_path" ≠ PStr p)
      ∨ (msg_get jsonMsg "event_path" = PNone
         ∧ msg_get jsonMsg "object_path" = PNone)))
  ∨ (msg_get jsonMsg "sensor_response_type" = PStr "disk_status_hpi"
     ∧ ((∃ p, msg_get jsonMsg "event_path" = PStr p
              ∧ length (Py.split "/" p) < 3)
        ∨ ∀ p, msg_get jsonMsg "event_path" ≠ PStr p)) →
  _process_msg now jsonMsg self = (Returned (), self).
Proof.
  intros [[Hdm Hpath]|[Hhpi Hpath]].
  - rewrite (process_msg_drivemanager now jsonMsg self Hdm).
    assert (drivemanager_drive (_host_id self) (_hpi_drives self) jsonMsg = None)
      as ->; [| done].
    unfold drivemanager_drive, parse_drive_mngr_path, drive_mngr_path_body.
    destruct Hpath as [(p & -> & Hlen)|[[Hnone Hstr]|[-> ->]]]; simpl.
    + by destruct (Nat.ltb_spec (length (Py.split "/" p)) 4) as [_|?]; [| lia].
    + destruct (msg_get jsonMsg "event_path") as [|p|z];
        [done | by destruct (Hstr p) | done].
    + done.
  - rewrite (process_msg_hpi now jsonMsg self Hhpi).
    pose proof (disk_status_hpi_cases now jsonMsg self) as H.
    assert (hpi_drive (_host_id self) jsonMsg = None) as Hnone;
      [| by rewrite Hnone in H].
    unfold hpi_drive, parse_hpi_path, hpi_path_body. simpl.
    destruct Hpath as [(p & -> & Hlen)|Hstr]; simpl.
    + by destruct (Nat.ltb_spec (length (Py.split "/" p)) 3) as [_|?]; [| lia].
    + destruct (msg_get jsonMsg "event_path") as [|p|z];
        [done | by destruct (Hstr p) | done].
Qed.

Lemma rejected_event_changes_nothing_witness :
  _process_msg "Mon Mar  2 10:00:00 2015"
    (hpi_event "ENC1/disk" "ok_none" "SN42") two_good
  = (Returned (), two_good).
Proof.
  apply (rejected_event_changes_nothing "Mon Mar  2 10:00:00 2015"
           (hpi_event "ENC1/disk" "ok_none" "SN42") two_good).
  right. split; [reflexivity |]. left. exists "ENC1/disk".
  split; [reflexivity | simpl; lia].
Defined.

(** X13. A drive-manager event that is accepted (an event path of at least
    four segments, or no event path and an object path) and whose serial
    number has no stored drive, or a stored drive with the same status:
    the method returns; the one message written is the drive-manager status
    message of the new drive, without uuid; no incident is written; the
    drive is stored under its serial number, with the status of the event;
    the inventory view is untouched. *)
Theorem drivemanager_event_without_change (now : string) (jsonMsg : message)
    (self : handler) :
  msg_get jsonMsg "sensor_response_type" = PStr "disk_status_drivemanager" →
  (∃ p, msg_get jsonMsg "event_path" = PStr p ∧ 4 ≤ length (Py.split "/" p))
  ∨ (msg_get jsonMsg "event_path" = PNone
     ∧ msg_get jsonMsg "object_path" ≠ PNone) →
  (∀ stored,
     Py.get (_drvmngr_drives self) (msg_get jsonMsg "serial_number") = Some stored →
     get_drive_status stored = msg_get jsonMsg "status") →
  ∃ drive self',
    _process_msg now jsonMsg self = (Returned (), self')
    ∧ get_drive_status drive = msg_get jsonMsg "status"
    ∧ msgQ self'
      = msgQ self ++ [(RabbitMQegressProcessor, toDriveMngrJsonMsg drive PNone)]
    ∧ _drvmngr_drives self'
      = Py.setitem (_drvmngr_drives self) (msg_get jsonMsg "serial_number") drive
    ∧ Py.get (_drvmngr_drives self') (msg_get jsonMsg "serial_number")
      = Some drive
    ∧ _hpi_drives self' = _hpi_drives self.
Proof.
  intros Hdm Hpath Hsame.
  destruct (accepted_drive (_host_id self) (_hpi_drives self) jsonMsg Hpath)
    as (drive & Hdrive & Hst).
  assert (Hch : status_changed (_drvmngr_drives self)
                  (msg_get jsonMsg "serial_number") drive = false).
  { unfold status_changed.
    destruct (Py.get (_drvmngr_drives self) (msg_get jsonMsg "serial_number"))
      as [stored|] eqn:Hget; [| done].
    apply bool_decide_eq_false_2. rewrite Hst, (Hsame stored eq_refl). tauto. }
  rewrite (process_msg_drivemanager now jsonMsg self Hdm), Hdrive.
  destruct (drivemanager_update_cases now (msg_get jsonMsg "serial_number")
              drive self)
    as [(e & Hch' & _)|(q & self' & -> & Hq & _ & Hhpi & Hd & HmsgQ & _)];
    [congruence |].
  destruct Hq as [[_ ->]|[Hch' _]]; [| congruence].
  exists drive, self'. split_and!; try done.
  by rewrite Hd, get_setitem_eq.
Qed.

Lemma drivemanager_event_without_change_witness :
  ∃ drive self',
    _process_msg "Mon Mar  2 10:00:00 2015"
      (drivemanager_event "ENC1/disk/3/status" "ok_none" "SN42")
      (initialize "node1" false [])
    = (Returned (), self')
    ∧ get_drive_status drive = PStr "ok_none"
    ∧ msgQ self' = [(RabbitMQegressProcessor, toDriveMngrJsonMsg drive PNone)]
    ∧ _drvmngr_drives self' = [(PStr "SN42", drive)]
    ∧ Py.get (_drvmngr_drives self') (PStr "SN42") = Some drive
    ∧ _hpi_drives self' = [].
Proof.
  apply (drivemanager_event_without_change "Mon Mar  2 10:00:00 2015"
           (drivemanager_event "ENC1/disk/3/status" "ok_none" "SN42")
           (initialize "node1" false [])).
  - reflexivity.
  - left. exists "ENC1/disk/3/status". split; [reflexivity | simpl; lia].
  - intros stored H. discriminate H.
Defined.

(** X14. Which messages write an incident. Processing a message writes
    exactly one incident, that of the event's drive with the text of its
    state, when the message is a drive-manager event with a valid drive
    whose serial number has a stored drive with another status, and the
    new status is a state and a reason around a ["_"] with the state,
    lower-cased, one of [empty], [unused], [ok], [inuse], [failed]. Every
    other message writes none: requests, inventory events (even with a new
    status), dropped events, first events for a serial number, repeated
    statuses, and changed statuses that [_log_IEM] cannot log. *)
Theorem incident_only_on_changed_status (now : string) (jsonMsg : message)
    (self : handler) :
  (∀ drive state reason,
     loggable_change self jsonMsg drive state reason →
     ∃ log_msg,
       iem_log_msg state reason = Some log_msg
       ∧ incidents (process now jsonMsg self)
         = incidents self ++ [incident drive state reason log_msg])
  ∧ ((∀ drive state reason, ¬ loggable_change self jsonMsg drive state reason) →
     incidents (process now jsonMsg self) = incidents self).
Proof.
  unfold process. split.
  - intros drive state reason (Hdm & Hdrive & (stored & Hstored & Hdiff)
                               & Hsplit & Hstate).
    destruct (iem_log_msg_assigned state reason Hstate) as [log_msg Hlog].
    exists log_msg. split; [done |].
    rewrite (process_msg_drivemanager now jsonMsg self Hdm), Hdrive.
    rewrite drivemanager_update_eq. unfold status_changed.
    rewrite Hstored, bool_decide_eq_true_2 by done.
    rewrite log_IEM_eq. unfold status_and_reason. rewrite Hsplit. simpl.
    rewrite Hlog.
    match goal with
    | |- context [_serialize_disk_status now ?X] =>
        destruct (serialize_disk_status_report now X)
          as (self' & -> & Hsame & _)
    end.
    injection Hsame as _ _ _ Hq. simpl in *.
    unfold incidents. rewrite Hq, filter_app, incidents_egress.
    by rewrite filter_cons, decide_True.
  - intros Hnot.
    destruct (decide (msg_get jsonMsg "sensor_response_type" = PNone))
      as [Hno|Hev].
    { pose proof (process_no_event now jsonMsg self Hno) as H.
      exact (f_equal snd H). }
    destruct (decide (msg_get jsonMsg "sensor_response_type"
                      = PStr "disk_status_drivemanager")) as [Hdm|Hdm].
    { rewrite (process_msg_drivemanager now jsonMsg self Hdm).
      destruct (drivemanager_drive (_host_id self) (_hpi_drives self) jsonMsg)
        as [drive|] eqn:Hdrive; [| done].
      rewrite drivemanager_update_eq.
      destruct (status_changed (_drvmngr_drives self)
                  (msg_get jsonMsg "serial_number") drive) eqn:Hch.
      - (* a changed status: it cannot be logged *)
        assert (∃ e, ∀ s, _log_IEM drive s = (Raised e, s)) as [e He].
        { destruct (status_and_reason_cases drive)
            as [[Hsr _]|(state & reason & Hsr & Hsplit)].
          - exists ValueError. intros s. by rewrite log_IEM_eq, Hsr.
          - exists (UnboundLocalError "log_msg"). intros s.
            rewrite log_IEM_eq, Hsr, iem_log_msg_unassigned; [done |].
            intros Hstate. apply (Hnot drive state reason).
            split_and!; try done.
            unfold status_changed in Hch.
            destruct (Py.get (_drvmngr_drives self)
                        (msg_get jsonMsg "serial_number")) as [stored|];
              [| done].
            apply bool_decide_eq_true_1 in Hch. by exists stored. }
        rewrite He. unfold incidents. simpl. apply incidents_egress.
      - unfold ret.
        match goal with
        | |- context [_serialize_disk_status now ?X] =>
            destruct (serialize_disk_status_report now X)
              as (self' & -> & Hsame & _)
        end.
        injection Hsame as _ _ _ Hq. simpl in *.
        unfold incidents. rewrite Hq. apply incidents_egress. }
    destruct (decide (msg_get jsonMsg "sensor_response_type"
                      = PStr "disk_status_hpi")) as [Hhpi|Hhpi].
    + rewrite (process_msg_hpi now jsonMsg self Hhpi).
      pose proof (disk_status_hpi_cases now jsonMsg self) as H.
      destruct (hpi_drive (_host_id self) jsonMsg) as [drive|].
      * destruct H as (e & n & self' & _ & _ & -> & _ & _ & _ & HmsgQ & _).
        unfold incidents. simpl. rewrite HmsgQ. apply incidents_egress.
      * by rewrite H.
    + by rewrite process_msg_other_event.
Qed.

Lemma incident_only_on_changed_status_witness :
  incidents
    (process "Mon Mar  2 10:00:00 2015"
       (drivemanager_event "ENC1/disk/3/status" "EMPTY_None" "SN1") two_good)
  = [(LoggingMsgHandler,
      LoggingRequest "LOG_WARNING" "IEM" "IEC: 020001002: Drive removed"
        {| enclosure_serial_number := PStr "ENC1";
           disk_serial_number := PStr "SN1";
           slot := PStr "3";
           status := "EMPTY";
           reason := "None" |})]
  ∧ incidents
      (process "Mon Mar  2 10:00:00 2015"
         (hpi_event "ENC1/disk/3" "failed_smart" "SN1") two_good)
    = incidents two_good
  ∧ incidents (process "Mon Mar  2 10:00:00 2015" degraded_event one_ok)
    = incidents one_ok.
Proof.
  split_and!.
  - destruct (incident_only_on_changed_status "Mon Mar  2 10:00:00 2015"
                (drivemanager_event "ENC1/disk/3/status" "EMPTY_None" "SN1")
                two_good) as [H _].
    destruct (H (sample_drive "EMPTY_None" "SN1") "EMPTY" "None")
      as (log_msg & Hlog & Hincidents).
    + split_and!; try reflexivity.
      * exists (sample_drive "ok_none" "SN1"). split; [reflexivity |].
        vm_compute. discriminate.
      * apply elem_of_cons. by left.
    + vm_compute in Hlog. injection Hlog as <-. exact Hincidents.
  - apply (incident_only_on_changed_status "Mon Mar  2 10:00:00 2015"
             (hpi_event "ENC1/disk/3" "failed_smart" "SN1") two_good).
    intros drive state reason [H _]. vm_compute in H. discriminate H.
  - apply (incident_only_on_changed_status "Mon Mar  2 10:00:00 2015"
             degraded_event one_ok).
    intros drive state reason (_ & Hdrive & _ & Hsplit & Hstate).
    vm_compute in Hdrive. injection Hdrive as <-.
    vm_compute in Hsplit. injection Hsplit as <- <-.
    vm_compute in Hstate.
    repeat (apply elem_of_cons in Hstate as [Hstate|Hstate]; [discriminate |]).
    by apply elem_of_nil in Hstate.
Defined.

(** X15. An inventory event whose event path is a string of at least three
    segments: the method returns; the one message written is the inventory
    message, built from the host id, the path, the attributes of the event
    as [get] gives them ([None] for a missing one) and segment 0 as
    enclosure, without uuid; the record is stored in the inventory view
    under ["serialNumber"]. *)
Theorem inventory_event_accepted (now : string) (jsonMsg : message)
    (self : handler) (p e n : string) :
  msg_get jsonMsg "sensor_response_type" = PStr "disk_status_hpi" →
  msg_get jsonMsg "event_path" = PStr p →
  Py.split "/" p !! 0 = Some e →
  Py.split "/" p !! 2 = Some n →
  ∃ drive self',
    _process_msg now jsonMsg self = (Returned (), self')
    ∧ drive
      = set_parsed
          (Drive_init (_host_id self) (PStr p)
             (msg_get jsonMsg "status") (msg_get jsonMsg "serialNumber")
             (msg_get jsonMsg "drawer") (msg_get jsonMsg "location")
             (msg_get jsonMsg "manufacturer") (msg_get jsonMsg "productName")
             (msg_get jsonMsg "productVersion") (msg_get jsonMsg "wwn"))
          (PStr e) (PStr n) NA
    ∧ Py.get (_hpi_drives self') (msg_get jsonMsg "serialNumber") = Some drive
    ∧ msgQ self'
      = msgQ self
          ++ [(RabbitMQegressProcessor,
               HPIDataMsg (_host_id self) (PStr p)
                 (msg_get jsonMsg "drawer") (msg_get jsonMsg "location")
                 (msg_get jsonMsg "manufacturer") (msg_get jsonMsg "productName")
                 (msg_get jsonMsg "productVersion")
                 (msg_get jsonMsg "serialNumber") (msg_get jsonMsg "wwn")
                 (PStr e) PNone)].
Proof.
  intros Hhpi Hp He Hn.
  rewrite (process_msg_hpi now jsonMsg self Hhpi).
  pose proof (disk_status_hpi_cases now jsonMsg self) as H.
  assert (Hdrive : hpi_drive (_host_id self) jsonMsg
                   = Some (set_parsed
                             (Drive_init (_host_id self) (PStr p)
                                (msg_get jsonMsg "status")
                                (msg_get jsonMsg "serialNumber")
                                (msg_get jsonMsg "drawer")
                                (msg_get jsonMsg "location")
                                (msg_get jsonMsg "manufacturer")
                                (msg_get jsonMsg "productName")
                                (msg_get jsonMsg "productVersion")
                                (msg_get jsonMsg "wwn"))
                             (PStr e) (PStr n) NA)).
  { unfold hpi_drive, parse_hpi_path, hpi_path_body. rewrite Hp. simpl.
    destruct (Py.split "/" p) as [|e' [|d [|n' l]]]; simpl in *; try done.
    by simplify_eq. }
  rewrite Hdrive in H.
  destruct H as (e' & n' & self' & _ & _ & -> & _ & Hhpi' & _ & HmsgQ & _).
  eexists _, self'. split_and!; try done.
  by rewrite Hhpi', get_setitem_eq.
Qed.

Lemma inventory_event_accepted_witness :
  ∃ drive self',
    _process_msg "Mon Mar  2 10:00:00 2015"
      (hpi_event "ENC1/disk/3" "ok_none" "SN42") (initialize "node1" false [])
    = (Returned (), self')
    ∧ drive
      = set_parsed
          (Drive_init "node1" (PStr "ENC1/disk/3") (PStr "ok_none") (PStr "SN42")
             PNone PNone (PStr "SEAGATE") PNone PNone PNone)
          (PStr "ENC1") (PStr "3") NA
    ∧ Py.get (_hpi_drives self') (PStr "SN42") = Some drive
    ∧ msgQ self'
      = [(RabbitMQegressProcessor,
          HPIDataMsg "node1" (PStr "ENC1/disk/3") PNone PNone (PStr "SEAGATE")
            PNone PNone (PStr "SN42") PNone (PStr "ENC1") PNone)].
Proof.
  apply (inventory_event_accepted "Mon Mar  2 10:00:00 2015"
           (hpi_event "ENC1/disk/3" "ok_none" "SN42")
           (initialize "node1" false []) "ENC1/disk/3" "ENC1" "3");
    reflexivity.
Defined.

(** ** Events with an object path *)

(** X16. A drive-manager event without event path and with an object path,
    for a serial number the inventory view does not hold: the [KeyError] of
    the lookup is caught and the drive is built under the not-available
    path; it is always valid, with enclosure ["HPIdataNotAvailable"], drive
    number ["-1"] and filename ["status"], and with the host, the status
    and the serial number of the event. *)
Theorem object_path_without_inventory (host_id : string)
    (hpi_drives : Py.dict Drive) (jsonMsg : message) :
  msg_get jsonMsg "event_path" = PNone →
  msg_get jsonMsg "object_path" ≠ PNone →
  Py.get hpi_drives (msg_get jsonMsg "serial_number") = None →
  ∃ drive,
    drivemanager_drive host_id hpi_drives jsonMsg = Some drive
    ∧ _path drive = PStr "HPIdataNotAvailable/disk/-1/status"
    ∧ _enclosure drive = PStr "HPIdataNotAvailable"
    ∧ _drive_num drive = PStr "-1"
    ∧ _filename drive = PStr "status"
    ∧ _hostId drive = host_id
    ∧ _status drive = msg_get jsonMsg "status"
    ∧ _serialNumber drive = msg_get jsonMsg "serial_number"
    ∧ _drawer drive = NA ∧ _location drive = NA ∧ _manufacturer drive = NA
    ∧ _productName drive = NA ∧ _productVersion drive = NA ∧ _wwn drive = NA.
Proof.
  intros Hev Hobj Hget. unfold drivemanager_drive. rewrite Hev. simpl.
  assert (is_not_None (msg_get jsonMsg "object_path") = true) as ->
    by (by destruct (msg_get jsonMsg "object_path")).
  unfold object_event_path, rbind, Py.getitem. rewrite Hget.
  eexists. split; [reflexivity |]. by split_and!.
Qed.

Lemma object_path_without_inventory_witness :
  ∃ drive,
    drivemanager_drive "node1" [] (object_event "ok_none" "SN42") = Some drive
    ∧ _path drive = PStr "HPIdataNotAvailable/disk/-1/status"
    ∧ _enclosure drive = PStr "HPIdataNotAvailable"
    ∧ _drive_num drive = PStr "-1"
    ∧ _filename drive = PStr "status"
    ∧ _hostId drive = "node1"
    ∧ _status drive = PStr "ok_none"
    ∧ _serialNumber drive = PStr "SN42"
    ∧ _drawer drive = NA ∧ _location drive = NA ∧ _manufacturer drive = NA
    ∧ _productName drive = NA ∧ _productVersion drive = NA ∧ _wwn drive = NA.
Proof.
  apply (object_path_without_inventory "node1" [] (object_event "ok_none" "SN42")).
  - reflexivity.
  - vm_compute. discriminate.
  - reflexivity.
Defined.

(** X17. A drive-manager event without event path and with an object path,
    for a serial number whose inventory record was parsed by
    [parse_hpi_path]: the drive is built under the path
    [enclosure/disk/number/status] of that record, and it is valid, with
    the enclosure and drive number of the record and filename
    ["status"]. *)
Theorem object_path_with_inventory (host_id : string)
    (hpi_drives : Py.dict Drive) (jsonMsg : message) (hpi_drive : Drive)
    (e n : string) :
  msg_get jsonMsg "event_path" = PNone →
  msg_get jsonMsg "object_path" ≠ PNone →
  Py.get hpi_drives (msg_get jsonMsg "serial_number") = Some hpi_drive →
  hpi_parsed hpi_drive →
  get_drive_enclosure hpi_drive = PStr e →
  get_drive_num hpi_drive = PStr n →
  drivemanager_drive host_id hpi_drives jsonMsg
  = Some (set_parsed
            (Drive4 host_id (PStr (((e +:+ "/disk/") +:+ n) +:+ "/status"))
               (msg_get jsonMsg "status") (msg_get jsonMsg "serial_number"))
            (PStr e) (PStr n) (PStr "status")).
Proof.
  intros Hev Hobj Hget (p & e' & n' & Hp & He' & Hn' & Henc & Hnum & _) He Hn.
  unfold get_drive_enclosure in He. unfold get_drive_num in Hn.
  assert (e' = e) as -> by congruence. assert (n' = n) as -> by congruence.
  unfold drivemanager_drive. rewrite Hev. simpl.
  assert (is_not_None (msg_get jsonMsg "object_path") = true) as ->
    by (by destruct (msg_get jsonMsg "object_path")).
  unfold object_event_path, rbind, Py.getitem. rewrite Hget.
  unfold status_path, rbind, get_drive_enclosure, get_drive_num.
  rewrite Henc, Hnum. simpl.
  unfold parse_drive_mngr_path, drive_mngr_path_body. simpl.
  rewrite split_status_path.
  rewrite (split_one_field "/" e), (split_one_field "/" n); [done | |].
  - apply (split_field "/" p). by eapply list_elem_of_lookup_2.
  - apply (split_field "/" p). by eapply list_elem_of_lookup_2.
Qed.

Lemma object_path_with_inventory_witness :
  drivemanager_drive "node1"
    (_hpi_drives
       (process "Mon Mar  2 10:00:00 2015"
          (hpi_event "ENC7/disk/12" "ok_none" "SN42")
          (initialize "node1" false [])))
    (object_event "failed_smart" "SN42")
  = Some (set_parsed
            (Drive4 "node1" (PStr "ENC7/disk/12/status") (PStr "failed_smart")
               (PStr "SN42"))
            (PStr "ENC7") (PStr "12") (PStr "status")).
Proof.
  apply (object_path_with_inventory "node1" _ (object_event "failed_smart" "SN42")
           (set_parsed
              (Drive_init "node1" (PStr "ENC7/disk/12") (PStr "ok_none")
                 (PStr "SN42") PNone PNone (PStr "SEAGATE") PNone PNone PNone)
              (PStr "ENC7") (PStr "12") NA)
           "ENC7" "12").
  - reflexivity.
  - vm_compute. discriminate.
  - reflexivity.
  - exists "ENC7/disk/12", "ENC7", "12". split_and!; reflexivity.
  - reflexivity.
  - reflexivity.
Defined.

(** ** What the stores hold *)

Section stores.

Lemma Forall_setitem {V} (Q : pyval * V → Prop) (d : Py.dict V) (k : pyval) (v : V) :
  Forall Q d → Q (k, v) → Forall Q (Py.setitem d k v).
Proof.
  intros Hd Hkv. induction Hd as [|[k0 v0] d H0 Hd IH]; simpl.
  - by repeat constructor.
  - destruct (decide (k0 = k)) as [->|Hne]; by constructor.
Qed.

Lemma keys_setitem {V} (d : Py.dict V) (k : pyval) (v : V) :
  Py.keys (Py.setitem d k v)
  = if decide (k ∈ Py.keys d) then Py.keys d else Py.keys d ++ [k].
Proof.
  unfold Py.keys. induction d as [|[k0 v0] d IH].
  - destruct (decide (k ∈ ([] : Py.dict V).*1)) as [H|_]; [| done].
    by apply elem_of_nil in H.
  - cbn [Py.setitem]. destruct (decide (k0 = k)) as [->|Hne].
    + rewrite !fmap_cons. cbn [fst]. rewrite decide_True; [done | by left].
    + rewrite !fmap_cons, IH. cbn [fst].
      destruct (decide (k ∈ d.*1)) as [Hin|Hout].
      * rewrite decide_True; [done | by right].
      * rewrite decide_False; [done |].
        intros [?|?]%elem_of_cons; [congruence | done].
Qed.

Lemma NoDup_setitem {V} (d : Py.dict V) (k : pyval) (v : V) :
  NoDup (Py.keys d) → NoDup (Py.keys (Py.setitem d k v)).
Proof.
  intros Hnd. rewrite keys_setitem.
  destruct (decide (k ∈ Py.keys d)) as [Hin|Hout]; [done |].
  apply NoDup_app. split_and!; [done | | apply NoDup_singleton].
  intros x Hx Hk. apply list_elem_of_singleton in Hk as ->. done.
Qed.

Lemma keyed_setitem (d : Py.dict Drive) (drive : Drive) :
  keyed_by_serial d →
  keyed_by_serial (Py.setitem d (getSerialNumber drive) drive).
Proof.
  intros [Hnd Hall]. split; [by apply NoDup_setitem |].
  by apply Forall_setitem.
Qed.

Lemma parse_drive_mngr_path_true (drive0 drive : Drive) :
  parse_drive_mngr_path drive0 = (true, drive) →
  ∃ p e n f,
    _path drive0 = PStr p
    ∧ Py.split "/" p !! 0 = Some e
    ∧ Py.split "/" p !! 2 = Some n
    ∧ Py.split "/" p !! 3 = Some f
    ∧ drive = set_parsed drive0 (PStr e) (PStr n) (PStr f).
Proof.
  unfold parse_drive_mngr_path, drive_mngr_path_body.
  destruct (_path drive0) as [|p|z]; simpl; try done.
  destruct (Py.split "/" p) as [|e [|d [|n [|f l]]]] eqn:Hsplit; simpl; try done.
  intros [= <-]. exists p, e, n, f. by rewrite Hsplit.
Qed.

(** The drive of a drive-manager event is parsed and has the serial number
    of the event. *)
Lemma drivemanager_drive_parsed (host_id : string) (hpi_drives : Py.dict Drive)
    (jsonMsg : message) (drive : Drive) :
  drivemanager_drive host_id hpi_drives jsonMsg = Some drive →
  getSerialNumber drive = msg_get jsonMsg "serial_number"
  ∧ drive_mngr_parsed drive.
Proof.
  unfold drivemanager_drive.
  destruct (is_not_None (msg_get jsonMsg "event_path")).
  - destruct (parse_drive_mngr_path _) as [[|] drive'] eqn:Hparse; simpl; [| done].
    intros [= ->].
    apply parse_drive_mngr_path_true in Hparse
      as (p & e & n & f & Hp & He & Hn & Hf & ->).
    split; [done |]. by exists p, e, n, f.
  - destruct (is_not_None (msg_get jsonMsg "object_path")); [| done].
    destruct (parse_drive_mngr_path _) as [[|] drive'] eqn:Hparse; simpl; [| done].
    intros [= ->].
    apply parse_drive_mngr_path_true in Hparse
      as (p & e & n & f & Hp & He & Hn & Hf & ->).
    split; [done |]. by exists p, e, n, f.
Qed.

(** The drive of an inventory event is parsed and has the serial number of
    the event; so is the drive synthesized from it. *)
Lemma hpi_drive_stored (host_id : string) (jsonMsg : message) (drive : Drive)
    (e n : string) :
  hpi_drive host_id jsonMsg = Some drive →
  get_drive_enclosure drive = PStr e →
  get_drive_num drive = PStr n →
  getSerialNumber drive = msg_get jsonMsg "serialNumber"
  ∧ hpi_parsed drive
  ∧ getSerialNumber (synthesized host_id jsonMsg e n)
    = msg_get jsonMsg "serialNumber"
  ∧ drive_mngr_parsed (synthesized host_id jsonMsg e n).
Proof.
  intros (p & e' & n' & Hp & He' & Hn' & ->)%hpi_drive_parsed [= <-] [= <-].
  split_and!; try done.
  - by exists p, e', n'.
  - exists (((e' +:+ "/disk/") +:+ n') +:+ "/status"), e', n', "status".
    rewrite split_status_path.
    rewrite (split_one_field "/" e'), (split_one_field "/" n'); [done | |].
    + apply (split_field "/" p). by eapply list_elem_of_lookup_2.
    + apply (split_field "/" p). by eapply list_elem_of_lookup_2.
Qed.

(** What one message does to the stores: the host id stays; each view
    stays, or gets one drive stored under the serial number of the message,
    a parsed drive that carries that serial number. *)
Lemma process_stores (now : string) (jsonMsg : message) (self : handler) :
  _host_id (process now jsonMsg self) = _host_id self
  ∧ (_drvmngr_drives (process now jsonMsg self) = _drvmngr_drives self
     ∨ ∃ drive,
         _drvmngr_drives (process now jsonMsg self)
           = Py.setitem (_drvmngr_drives self) (getSerialNumber drive) drive
         ∧ (getSerialNumber drive = msg_get jsonMsg "serial_number"
            ∨ getSerialNumber drive = msg_get jsonMsg "serialNumber")
         ∧ drive_mngr_parsed drive)
  ∧ (_hpi_drives (process now jsonMsg self) = _hpi_drives self
     ∨ ∃ drive,
         _hpi_drives (process now jsonMsg self)
           = Py.setitem (_hpi_drives self) (getSerialNumber drive) drive
         ∧ getSerialNumber drive = msg_get jsonMsg "serialNumber"
         ∧ hpi_parsed drive).
Proof.
  destruct (decide (msg_get jsonMsg "sensor_response_type" = PNone)) as [Hno|Hev].
  { pose proof (process_no_event now jsonMsg self Hno) as H.
    apply (f_equal fst) in H. unfold but_msgQ in H. simpl in H.
    injection H as Hh Hd Hhpi _ _. split_and!; [done | by left | by left]. }
  unfold process.
  destruct (decide (msg_get jsonMsg "sensor_response_type"
                    = PStr "disk_status_drivemanager")) as [Hdm|Hdm].
  { rewrite (process_msg_drivemanager now jsonMsg self Hdm).
    destruct (drivemanager_drive (_host_id self) (_hpi_drives self) jsonMsg)
      as [drive|] eqn:Hdrive; [| split_and!; [done | by left | by left]].
    destruct (drivemanager_drive_parsed _ _ _ _ Hdrive) as [Hsn Hparsed].
    destruct (drivemanager_update_cases now (msg_get jsonMsg "serial_number")
                drive self)
      as [(e & _ & _ & ->)|(q & self' & -> & _ & Hh & Hhpi & Hd & _)];
      [split_and!; [done | by left | by left] |].
    simpl. split_and!; [done | | by left].
    right. exists drive. rewrite Hsn. split_and!; [done | by left | done]. }
  destruct (decide (msg_get jsonMsg "sensor_response_type"
                    = PStr "disk_status_hpi")) as [Hhpi|Hhpi].
  { rewrite (process_msg_hpi now jsonMsg self Hhpi).
    pose proof (disk_status_hpi_cases now jsonMsg self) as H.
    destruct (hpi_drive (_host_id self) jsonMsg) as [drive|] eqn:Hdrive;
      [| rewrite H; split_and!; [done | by left | by left]].
    destruct H as (e & n & self' & He & Hn & -> & Hh & Hhpi' & Hd & _).
    destruct (hpi_drive_stored _ _ _ _ _ Hdrive He Hn)
      as (Hsn & Hparsed & Hsn' & Hparsed').
    simpl. split_and!; [done | |].
    - right. exists (synthesized (_host_id self) jsonMsg e n).
      rewrite Hsn'. split_and!; [done | by right | done].
    - right. exists drive. rewrite Hsn. by split_and!. }
  rewrite process_msg_other_event by done.
  split_and!; [done | by left | by left].
Qed.

Lemma run_invariant (I : handler → Prop) (queue : list (string * message))
    (self : handler) :
  (∀ now jsonMsg s, I s → I (process now jsonMsg s)) →
  I self → I (run queue self).
Proof.
  intros Hstep. revert self.
  induction queue as [|[now jsonMsg] queue IH]; intros self Hself; [done |].
  apply IH. by apply Hstep.
Qed.

End stores.

(** X18. After any sequence of messages from the empty stores, in both
    views no serial number appears twice and every drive is stored under
    its own serial number: the key of an item is what [getSerialNumber]
    gives for its drive, which is what the report and the answers to
    requests print. *)
Theorem stores_keyed_by_serial (host_id : string) (dir : bool)
    (file : list DurableReport) (queue : list (string * message)) :
  keyed_by_serial (_drvmngr_drives (run queue (initialize host_id dir file)))
  ∧ keyed_by_serial (_hpi_drives (run queue (initialize host_id dir file))).
Proof.
  apply (run_invariant
           (λ s, keyed_by_serial (_drvmngr_drives s)
                 ∧ keyed_by_serial (_hpi_drives s))).
  - intros now jsonMsg s [Hd Hhpi].
    destruct (process_stores now jsonMsg s)
      as (_ & [->|(drive & -> & _ & _)] & [->|(drive' & -> & _ & _)]);
      split; try done; by apply keyed_setitem.
  - split; split; constructor.
Qed.

(** X19. After any sequence of messages from the empty stores, every drive
    of the drive-manager view has a path of at least four segments with
    enclosure, drive number and filename equal to its segments 0, 2 and 3,
    and every drive of the inventory view has a path of at least three
    segments with enclosure and drive number equal to its segments 0 and 2:
    a drive whose path did not parse is never stored. *)
Theorem stored_drives_parsed (host_id : string) (dir : bool)
    (file : list DurableReport) (queue : list (string * message)) :
  Forall (λ item, drive_mngr_parsed item.2)
    (_drvmngr_drives (run queue (initialize host_id dir file)))
  ∧ Forall (λ item, hpi_parsed item.2)
      (_hpi_drives (run queue (initialize host_id dir file))).
Proof.
  apply (run_invariant
           (λ s, Forall (λ item, drive_mngr_parsed item.2) (_drvmngr_drives s)
                 ∧ Forall (λ item, hpi_parsed item.2) (_hpi_drives s))).
  - intros now jsonMsg s [Hd Hhpi].
    destruct (process_stores now jsonMsg s)
      as (_ & [->|(drive & -> & _ & Hp)] & [->|(drive' & -> & _ & Hp')]);
      split; try done; by apply Forall_setitem.
  - split; constructor.
Qed.

(** X20. Processing a message never removes a serial number from a view
    and never changes the host id; and it leaves alone, in both views, the
    drive of every serial number other than those the message names under
    ["serial_number"] and ["serialNumber"]. *)
Theorem other_serials_untouched (now : string) (jsonMsg : message)
    (self : handler) (k : pyval) :
  _host_id (process now jsonMsg self) = _host_id self
  ∧ (is_Some (Py.get (_drvmngr_drives self) k) →
     is_Some (Py.get (_drvmngr_drives (process now jsonMsg self)) k))
  ∧ (is_Some (Py.get (_hpi_drives self) k) →
     is_Some (Py.get (_hpi_drives (process now jsonMsg self)) k))
  ∧ (k ≠ msg_get jsonMsg "serial_number" →
     k ≠ msg_get jsonMsg "serialNumber" →
     Py.get (_drvmngr_drives (process now jsonMsg self)) k
       = Py.get (_drvmngr_drives self) k
     ∧ Py.get (_hpi_drives (process now jsonMsg self)) k
       = Py.get (_hpi_drives self) k).
Proof.
  destruct (process_stores now jsonMsg self)
    as (Hh & Hd & Hhpi).
  split_and!; [done | | |].
  - destruct Hd as [->|(drive & -> & _)]; [done | apply get_setitem_is_Some].
  - destruct Hhpi as [->|(drive & -> & _)]; [done | apply get_setitem_is_Some].
  - intros Hk1 Hk2. split.
    + destruct Hd as [->|(drive & -> & Hsn & _)]; [done |].
      rewrite get_setitem, decide_False; [done |].
      by destruct Hsn as [-> | ->].
    + destruct Hhpi as [->|(drive & -> & Hsn & _)]; [done |].
      rewrite get_setitem, decide_False; [done |]. by rewrite Hsn.
Qed.

Lemma other_serials_untouched_witness :
  Py.get
    (_drvmngr_drives
       (process "Mon Mar  2 10:00:00 2015"
          (drivemanager_event "ENC1/disk/4/status" "failed_smart" "SN2") two_good))
    (PStr "SN1")
  = Some (sample_drive "ok_none" "SN1").
Proof.
  destruct (other_serials_untouched "Mon Mar  2 10:00:00 2015"
              (drivemanager_event "ENC1/disk/4/status" "failed_smart" "SN2")
              two_good (PStr "SN1")) as (_ & _ & _ & H).
  destruct H as [H _].
  - vm_compute. discriminate.
  - vm_compute. discriminate.
  - etrans; [exact H | reflexivity].
Defined.

(** ** What is written, and where *)

(** X21. Processing a message only ever appends: the internal queues after
    it are the queues before it followed by what it wrote, and the report
    file is untouched or has exactly one more document, stamped with the
    time of the processing and written from the drive-manager view as the
    message left it; a report directory that exists still exists. *)
Theorem process_appends (now : string) (jsonMsg : message) (self : handler) :
  (∃ q, msgQ (process now jsonMsg self) = msgQ self ++ q)
  ∧ (dmreport_file (process now jsonMsg self) = dmreport_file self
     ∨ ∃ l, dmreport_file (process now jsonMsg self)
            = dmreport_file self ++ [{| last_update_time := now; drives := l |}]
            ∧ Forall2 entry_of (_drvmngr_drives (process now jsonMsg self)) l)
  ∧ (dmreport_dir self = true → dmreport_dir (process now jsonMsg self) = true).
Proof.
  split_and!; [| apply process_report_of_view |].
  - destruct (decide (msg_get jsonMsg "sensor_response_type" = PNone))
      as [Hno|Hev].
    { destruct (no_event_writes now jsonMsg self Hno) as (q & Hq & _). eauto. }
    unfold process.
    destruct (decide (msg_get jsonMsg "sensor_response_type"
                      = PStr "disk_status_drivemanager")) as [Hdm|Hdm].
    { rewrite (process_msg_drivemanager now jsonMsg self Hdm).
      destruct (drivemanager_drive _ _ _) as [drive|];
        [| exists []; by rewrite app_nil_r].
      destruct (drivemanager_update_cases now (msg_get jsonMsg "serial_number")
                  drive self)
        as [(e & _ & _ & ->)|(q & self' & -> & _ & _ & _ & _ & HmsgQ & _)];
        simpl; eauto. }
    destruct (decide (msg_get jsonMsg "sensor_response_type"
                      = PStr "disk_status_hpi")) as [Hhpi|Hhpi].
    { rewrite (process_msg_hpi now jsonMsg self Hhpi).
      pose proof (disk_status_hpi_cases now jsonMsg self) as H.
      destruct (hpi_drive (_host_id self) jsonMsg) as [drive|].
      - destruct H as (e & n & self' & _ & _ & -> & _ & _ & _ & HmsgQ & _).
        simpl. eauto.
      - rewrite H. exists []. by rewrite app_nil_r. }
    rewrite process_msg_other_event by done. exists []. by rewrite app_nil_r.
  - intros Hdir.
    destruct (decide (msg_get jsonMsg "sensor_response_type" = PNone))
      as [Hno|Hev].
    { pose proof (process_no_event now jsonMsg self Hno) as H.
      apply (f_equal fst) in H. unfold but_msgQ in H.
      injection H as _ _ _ Hd _. congruence. }
    unfold process.
    destruct (decide (msg_get jsonMsg "sensor_response_type"
                      = PStr "disk_status_drivemanager")) as [Hdm|Hdm].
    { rewrite (process_msg_drivemanager now jsonMsg self Hdm).
      destruct (drivemanager_drive _ _ _) as [drive|]; [| done].
      rewrite drivemanager_update_eq.
      destruct (status_changed _ _ _).
      - rewrite log_IEM_eq.
        destruct (status_and_reason drive) as [[state reason]|e]; [| done].
        destruct (iem_log_msg state reason); [| done].
        match goal with
        | |- context [_serialize_disk_status now ?X] =>
            by destruct (serialize_disk_status_cases now X)
              as [(l & -> & _)|[-> _]]
        end.
      - unfold ret.
        match goal with
        | |- context [_serialize_disk_status now ?X] =>
            by destruct (serialize_disk_status_cases now X)
              as [(l & -> & _)|[-> _]]
        end. }
    destruct (decide (msg_get jsonMsg "sensor_response_type"
                      = PStr "disk_status_hpi")) as [Hhpi|Hhpi].
    { rewrite (process_msg_hpi now jsonMsg self Hhpi).
      unfold disk_status_hpi, bind, gets, modify, lift. simpl.
      destruct (hpi_drive (_host_id self) jsonMsg) as [drive|]; [| done].
      destruct (drv_mngr_drive_of _ _ _) as [[dm|]|e]; try done.
      match goal with
      | |- context [_serialize_disk_status now ?X] =>
          by destruct (serialize_disk_status_cases now X)
            as [(l & -> & _)|[-> _]]
      end. }
    by rewrite process_msg_other_event.
Qed.

Lemma process_appends_witness :
  dmreport_dir
    (process "Mon Mar  2 10:00:00 2015"
       (request "hpi_status" "*" "X" "u1")
       (set_dmreport_dir true two_good))
  = true.
Proof.
  apply (process_appends "Mon Mar  2 10:00:00 2015"
           (request "hpi_status" "*" "X" "u1") (set_dmreport_dir true two_good)).
  reflexivity.
Defined.

(** ** The report, whatever the view *)

(** X22. [_serialize_disk_status] never raises, whatever the statuses of
    the stored drives: it returns, and leaves the host id, both views and
    the queues as they were. *)
Theorem serialize_disk_status_returns (now : string) (self : handler) :
  ∃ self',
    _serialize_disk_status now self = (Returned (), self')
    ∧ _host_id self' = _host_id self
    ∧ _drvmngr_drives self' = _drvmngr_drives self
    ∧ _hpi_drives self' = _hpi_drives self
    ∧ msgQ self' = msgQ self.
Proof.
  destruct (serialize_disk_status_cases now self) as [(l & -> & _)|[-> _]];
    by eexists.
Qed.

(** ** A changed status that can be logged *)

(** X24. A drive-manager event that is accepted, whose serial number has a
    stored drive with a different status, and whose new status splits at
    its first ["_"] into a state that is, lower-cased, one of [empty],
    [unused], [ok], [inuse], [failed]: the method returns, having written
    first the drive-manager status message to the egress queue and then one
    incident to the logging queue, built from the new drive; the new drive
    replaces the stored one. *)
Theorem drivemanager_event_with_change (now : string) (jsonMsg : message)
    (self : handler) (stored : Drive) (state reason : string) :
  msg_get jsonMsg "sensor_response_type" = PStr "disk_status_drivemanager" →
  (∃ p, msg_get jsonMsg "event_path" = PStr p ∧ 4 ≤ length (Py.split "/" p))
  ∨ (msg_get jsonMsg "event_path" = PNone
     ∧ msg_get jsonMsg "object_path" ≠ PNone) →
  Py.get (_drvmngr_drives self) (msg_get jsonMsg "serial_number") = Some stored →
  get_drive_status stored ≠ msg_get jsonMsg "status" →
  Py.split1 "_" (Py.str (msg_get jsonMsg "status")) = [state; reason] →
  Py.lower state ∈ ["empty"; "unused"; "ok"; "inuse"; "failed"] →
  ∃ drive log_msg self',
    _process_msg now jsonMsg self = (Returned (), self')
    ∧ iem_log_msg state reason = Some log_msg
    ∧ msgQ self'
      = msgQ self
          ++ [(RabbitMQegressProcessor, toDriveMngrJsonMsg drive PNone);
              incident drive state reason log_msg]
    ∧ Py.get (_drvmngr_drives self') (msg_get jsonMsg "serial_number")
      = Some drive
    ∧ get_drive_status drive = msg_get jsonMsg "status".
Proof.
  intros Hdm Hpath Hstored Hdiff Hsplit Hstate.
  destruct (accepted_drive (_host_id self) (_hpi_drives self) jsonMsg Hpath)
    as (drive & Hdrive & Hst).
  assert (∃ log_msg, iem_log_msg state reason = Some log_msg) as [log_msg Hlog].
  { unfold iem_log_msg.
    repeat (apply elem_of_cons in Hstate as [->|Hstate]; [simpl; eauto |]).
    - destruct (Py.contains "smart" (Py.lower reason)); eauto.
    - by apply elem_of_nil in Hstate. }
  exists drive, log_msg.
  rewrite (process_msg_drivemanager now jsonMsg self Hdm), Hdrive.
  rewrite drivemanager_update_eq. unfold status_changed.
  rewrite Hstored, Hst, bool_decide_eq_true_2 by done.
  rewrite log_IEM_eq. unfold status_and_reason. rewrite Hst, Hsplit. simpl.
  rewrite Hlog.
  match goal with
  | |- context [_serialize_disk_status now ?X] =>
      destruct (serialize_disk_status_report now X)
        as (self' & -> & Hsame & _)
  end.
  injection Hsame as _ Hd _ Hq. simpl in *.
  exists self'. split_and!; try done.
  - by rewrite Hq, <- app_assoc.
  - by rewrite Hd, get_setitem_eq.
Qed.

Lemma drivemanager_event_with_change_witness :
  ∃ drive log_msg self',
    _process_msg "Mon Mar  2 10:00:05 2015"
      (drivemanager_event "ENC1/disk/3/status" "EMPTY_None" "SN1") two_good
    = (Returned (), self')
    ∧ iem_log_msg "EMPTY" "None" = Some log_msg
    ∧ msgQ self'
      = [(RabbitMQegressProcessor, toDriveMngrJsonMsg drive PNone);
         incident drive "EMPTY" "None" log_msg]
    ∧ Py.get (_drvmngr_drives self') (PStr "SN1") = Some drive
    ∧ get_drive_status drive = PStr "EMPTY_None".
Proof.
  apply (drivemanager_event_with_change "Mon Mar  2 10:00:05 2015"
           (drivemanager_event "ENC1/disk/3/status" "EMPTY_None" "SN1") two_good
           (sample_drive "ok_none" "SN1") "EMPTY" "None").
  - reflexivity.
  - left. exists "ENC1/disk/3/status". split; [reflexivity | simpl; lia].
  - reflexivity.
  - vm_compute. discriminate.
  - reflexivity.
  - apply elem_of_cons. by left.
Defined.

(** ** The calls of run *)

Section scheduling.

Lemma run_cons (now : string) (jsonMsg : message)
    (queue : list (string * message)) (self : handler) :
  run ((now, jsonMsg) :: queue) self = run queue (process now jsonMsg self).
Proof. reflexivity. Qed.

(** One call of [run] leaves the handler and the queue such that going on
    from there is the same as processing the whole queue; and it takes at
    least one message when there is one. *)
Lemma run_call_rest (queue : list (string * message)) (self : handler) :
  run (run_call queue self).2 (run_call queue self).1 = run queue self
  ∧ length (run_call queue self).2 ≤ pred (length queue).
Proof.
  revert self. induction queue as [|[now jsonMsg] queue IH]; intros self.
  - split; [done | simpl; lia].
  - rewrite run_cons. unfold process. simpl.
    destruct (_process_msg now jsonMsg self) as [[[]|e] self']; simpl.
    + destruct (IH self') as [Hrun Hlen]. split; [done | lia].
    + split; [done | lia].
Qed.

Lemma run_calls_run (n : nat) (queue : list (string * message)) (self : handler) :
  length queue ≤ n → run_calls n queue self = (run queue self, []).
Proof.
  revert queue self. induction n as [|n IH]; intros queue self Hlen.
  - destruct queue; [done | simpl in Hlen; lia].
  - simpl. destruct (run_call queue self) as [self' queue'] eqn:Hcall.
    pose proof (run_call_rest queue self) as [Hrun Hrest].
    rewrite Hcall in Hrun, Hrest. simpl in Hrun, Hrest.
    rewrite IH by lia. by rewrite Hrun.
Qed.

(** One call of [run] goes through the messages that return. *)
Lemma run_call_returns (before rest : list (string * message)) (self : handler) :
  returns_all before self →
  run_call (before ++ rest) self = run_call rest (run before self).
Proof.
  revert self.
  induction before as [|[now jsonMsg] before IH]; intros self; [done |].
  intros [Hret Hall]. rewrite run_cons. unfold process. simpl.
  destruct (_process_msg now jsonMsg self) as [[[]|e] self']; simpl in *;
    [by apply IH | done].
Qed.

End scheduling.

(** X25. An exception in one message costs that message only. A call of
    [run] processes the messages in turn as long as [_process_msg]
    returns; it stops at the first message whose processing raises, in the
    state that message left, and leaves the messages after it in the
    queue; when no message raises it empties the queue. [run] is scheduled
    again: after as many calls as there are messages (or more) the queue
    is empty and the handler is in the state that processing every message
    in turn, from the state the one before left, gives. *)
Theorem run_calls_process_every_message (n : nat)
    (queue : list (string * message)) (self : handler) :
  (∀ before now jsonMsg rest e,
     queue = before ++ (now, jsonMsg) :: rest →
     returns_all before self →
     (_process_msg now jsonMsg (run before self)).1 = Raised e →
     run_call queue self
     = ((_process_msg now jsonMsg (run before self)).2, rest))
  ∧ (returns_all queue self → run_call queue self = (run queue self, []))
  ∧ (length queue ≤ n →
     run_calls n queue self
     = (foldl (λ s '(now, jsonMsg), (_process_msg now jsonMsg s).2) self queue,
        [])).
Proof.
  split_and!.
  - intros before now jsonMsg rest e -> Hall Hraise.
    rewrite (run_call_returns before _ self Hall). simpl.
    by destruct (_process_msg now jsonMsg (run before self)) as [[[]|e'] self'].
  - intros Hall.
    rewrite <- (app_nil_r queue) at 1.
    by rewrite (run_call_returns queue [] self Hall).
  - intros Hlen. by rewrite run_calls_run.
Qed.

Lemma run_calls_process_every_message_witness :
  run_call
    [("Mon Mar  2 10:00:00 2015",
      drivemanager_event "ENC1/disk/3/status" "ok_none" "SN42");
     ("Mon Mar  2 10:00:05 2015", ∅);
     ("Mon Mar  2 10:00:10 2015",
      drivemanager_event "ENC1/disk/3/status" "failed_smart" "SN42")]
    (initialize "node1" false [])
  = ((_process_msg "Mon Mar  2 10:00:05 2015" ∅
        (process "Mon Mar  2 10:00:00 2015"
           (drivemanager_event "ENC1/disk/3/status" "ok_none" "SN42")
           (initialize "node1" false []))).2,
     [("Mon Mar  2 10:00:10 2015",
       drivemanager_event "ENC1/disk/3/status" "failed_smart" "SN42")])
  ∧ run_call
      [("Mon Mar  2 10:00:00 2015",
        drivemanager_event "ENC1/disk/3/status" "ok_none" "SN42")]
      (initialize "node1" false [])
    = (process "Mon Mar  2 10:00:00 2015"
         (drivemanager_event "ENC1/disk/3/status" "ok_none" "SN42")
         (initialize "node1" false []),
       [])
  ∧ run_calls 2
      [("Mon Mar  2 10:00:00 2015", ∅);
       ("Mon Mar  2 10:00:05 2015",
        drivemanager_event "ENC1/disk/3/status" "ok_none" "SN42")]
      (initialize "node1" false [])
    = ((_process_msg "Mon Mar  2 10:00:05 2015"
          (drivemanager_event "ENC1/disk/3/status" "ok_none" "SN42")
          (initialize "node1" false [])).2,
       []).
Proof.
  split_and!.
  - apply (proj1 (run_calls_process_every_message 0
                    [("Mon Mar  2 10:00:00 2015",
                      drivemanager_event "ENC1/disk/3/status" "ok_none" "SN42");
                     ("Mon Mar  2 10:00:05 2015", ∅);
                     ("Mon Mar  2 10:00:10 2015",
                      drivemanager_event "ENC1/disk/3/status" "failed_smart"
                        "SN42")]
                    (initialize "node1" false []))
             [("Mon Mar  2 10:00:00 2015",
               drivemanager_event "ENC1/disk/3/status" "ok_none" "SN42")]
             "Mon Mar  2 10:00:05 2015" ∅
             [("Mon Mar  2 10:00:10 2015",
               drivemanager_event "ENC1/disk/3/status" "failed_smart" "SN42")]
             (UnboundLocalError "node_request")).
    + reflexivity.
    + split; [reflexivity | exact I].
    + reflexivity.
  - apply (proj1 (proj2 (run_calls_process_every_message 0
                           [("Mon Mar  2 10:00:00 2015",
                             drivemanager_event "ENC1/disk/3/status" "ok_none"
                               "SN42")]
                           (initialize "node1" false [])))).
    split; [reflexivity | exact I].
  - etrans.
    + apply (proj2 (proj2 (run_calls_process_every_message 2
                             [("Mon Mar  2 10:00:00 2015", ∅);
                              ("Mon Mar  2 10:00:05 2015",
                               drivemanager_event "ENC1/disk/3/status" "ok_none"
                                 "SN42")]
                             (initialize "node1" false [])))).
      simpl. lia.
    + reflexivity.
Defined.

(** ** The documents of the report file *)

Section documents.

Lemma entries_serials (d : Py.dict Drive) (l : list report_entry) :
  Forall (λ item, getSerialNumber item.2 = item.1) d →
  Forall2 entry_of d l →
  entry_serial_number <$> l = Py.keys d.
Proof.
  unfold Py.keys. intros Hkeys Hl. revert Hkeys.
  induction Hl as [|item entry d l [Hsn _] _ IH]; intros Hkeys; [done |].
  apply Forall_cons in Hkeys as [Hk Hkeys].
  rewrite !fmap_cons, IH by done. by rewrite Hsn, Hk.
Qed.

Lemma entries_status (d : Py.dict Drive) (l : list report_entry) :
  Forall2 entry_of d l →
  Forall (λ entry, Py.contains "_" (entry_status entry) = false) l.
Proof.
  intros Hl. induction Hl as [|item entry d l [_ Hsplit] _ IH]; constructor;
    [| done].
  destruct (split1_cases "_" (Py.str (get_drive_status item.2)))
    as [[H _]|(a & b & H & _ & Ha)]; rewrite H in Hsplit; by simplify_eq.
Qed.

End documents.

(** X26. Every document written to the report file, over any sequence of
    messages from a fresh handler, lists each serial number at most once,
    and the status of each of its entries contains no ["_"] (the cut is
    at the first one; what follows it, further ["_"] included, is the
    reason). *)
Theorem report_documents_well_formed (host_id : string) (dir : bool)
    (queue : list (string * message)) :
  Forall
    (λ r, NoDup (entry_serial_number <$> drives r)
          ∧ Forall (λ entry, Py.contains "_" (entry_status entry) = false)
              (drives r))
    (dmreport_file (run queue (initialize host_id dir []))).
Proof.
  apply (run_invariant
           (λ s, (keyed_by_serial (_drvmngr_drives s)
                  ∧ keyed_by_serial (_hpi_drives s))
                 ∧ Forall
                     (λ r, NoDup (entry_serial_number <$> drives r)
                           ∧ Forall
                               (λ entry,
                                  Py.contains "_" (entry_status entry) = false)
                               (drives r))
                     (dmreport_file s))
           queue (initialize host_id dir [])).
  - intros now jsonMsg s [[Hd Hhpi] Hfile].
    assert (Hkeyed : keyed_by_serial (_drvmngr_drives (process now jsonMsg s))
                     ∧ keyed_by_serial (_hpi_drives (process now jsonMsg s))).
    { destruct (process_stores now jsonMsg s)
        as (_ & [->|(drive & -> & _ & _)] & [->|(drive' & -> & _ & _)]);
        split; try done; by apply keyed_setitem. }
    split; [done |].
    destruct (process_report_of_view now jsonMsg s) as [->|(l & -> & Hl)];
      [done |].
    apply Forall_app. split; [done |]. constructor; [| constructor].
    simpl. destruct Hkeyed as [[Hnd Hkeys] _]. split.
    + by rewrite (entries_serials _ l Hkeys Hl).
    + by eapply entries_status.
  - split; [split; split; constructor | constructor].
Qed.
